(** * Window Manager App: a shallow embedding of [main.py]

    The development follows the program: rectangles and the intersection test,
    the window geometry of [_resize_window], the two-key minimize sequence, the
    batch minimize over the windows of a monitor, the settings normalisation
    and the hotkey registry.

    Python values are modelled as follows.
    - [int] is [Z].
    - [float] is [Q]: every finite binary64 value is a rational.  An operation
      on floats rounds its exact result; the rounding is the function [fl],
      which stays a variable of the sections that compute with floats.
      Infinities and not-a-number are left out: the program meets them only
      when a percentage spells one out.
    - [str] is [string], a character being a code point below 256.
    - [dict] is stdpp's [gmap]. *)

From Stdlib Require Import ZArith QArith Qround String Ascii Lia.
From stdpp Require Import gmap strings list pretty.

Local Open Scope Z_scope.

(** ** What the program does to the outside world

    Calls into win32gui, tkinter and logging are recorded, in program order,
    as a list of effects. *)

Inductive effect : Type :=
  | SetWindowPos (hwnd x y cx cy : Z)      (* win32gui.SetWindowPos(hwnd, None, x, y, cx, cy, SWP_NOZORDER) *)
  | ShowWindow_MINIMIZE (hwnd : Z)         (* win32gui.ShowWindow(hwnd, SW_MINIMIZE) *)
  | info (msg : string)                    (* logger.info *)
  | warning (msg : string)                 (* logger.warning *)
  | error (msg : string)                   (* logger.error *)
  | showerror (title msg : string)         (* messagebox.showerror *)
  | destroy.                               (* self.destroy() *)

(** ** Rectangles *)

Record RECT : Type := mkRECT { left : Z; top : Z; right : Z; bottom : Z }.

Definition rects_intersect (a b : RECT) : bool :=
  negb ((left a >=? right b) || (right a <=? left b)
        || (top a >=? bottom b) || (bottom a <=? top b)).

(** Two rectangles touch at an edge: an edge of one lies on the line of the
    opposite edge of the other. *)
Definition touch_at_edge (a b : RECT) : Prop :=
  right a = left b \/ left a = right b \/ bottom a = top b \/ top a = bottom b.

Record MonitorInfo : Type := mkMonitorInfo { Monitor : RECT; Work : RECT; Flags : Z }.

(** The windows and monitors as win32gui and win32api show them to the
    program.  [EnumWindows] lists each top-level window once, and minimizing
    one window changes neither the visibility nor the rectangle of another, so
    the queries made during one enumeration read this one snapshot. *)
Record desktop : Type := mkDesktop {
  GetForegroundWindow : Z;
  monitor_of_window : Z -> MonitorInfo;   (* GetMonitorInfo(MonitorFromWindow(hwnd, MONITOR_DEFAULTTONEAREST)) *)
  cursor_monitor : MonitorInfo;           (* GetMonitorInfo(get_current_monitor()) *)
  EnumWindows : list Z;
  IsWindowVisible : Z -> bool;
  GetWindowRect : Z -> RECT
}.

(** The rectangle a window occupies after [SetWindowPos(_, _, x, y, cx, cy, _)]. *)
Definition placed (x y cx cy : Z) : RECT := mkRECT x y (x + cx) (y + cy).

(** ** Window geometry *)

(** [int(x)] of a float: truncation towards zero. *)
Definition int (x : Q) : Z := Z.quot (Qnum x) (Z.pos (Qden x)).

Definition _get_foreground_window (d : desktop) : option Z * list effect :=
  let hwnd := GetForegroundWindow d in
  if hwnd =? 0 then (None, [warning "No foreground window found."])
  else (Some hwnd, []).

Definition _get_monitor_info (d : desktop) (hwnd : Z) : MonitorInfo :=
  monitor_of_window d hwnd.

Section Geometry.
(** Rounding to binary64. *)
Variable fl : Q -> Q.

(** [n * x] for an [int] n and a [float] x: n is converted, then the
    product is rounded. *)
Definition int_mul_float (n : Z) (x : Q) : Q := fl (fl (inject_Z n) * x).

(** The arguments [_resize_window] passes to [SetWindowPos]:
    (left, top, width, height). *)
Definition resize_geometry (work_area : RECT) (scale : Q) : Z * Z * Z * Z :=
  let width := int (int_mul_float (right work_area - left work_area) scale) in
  let height := int (int_mul_float (bottom work_area - top work_area) scale) in
  let l := left work_area + ((right work_area - left work_area) - width) `div` 2 in
  let t := top work_area + ((bottom work_area - top work_area) - height) `div` 2 in
  (l, t, width, height).

Definition _resize_window (d : desktop) (hwnd : Z) (scale : Q) : list effect :=
  let monitor_info := _get_monitor_info d hwnd in
  let work_area := Work monitor_info in
  let '(l, t, width, height) := resize_geometry work_area scale in
  [ SetWindowPos hwnd l t width height;
    info ("Resized window " +:+ pretty hwnd +:+ " to " +:+ pretty width +:+ "x"
          +:+ pretty height +:+ " at (" +:+ pretty l +:+ ", " +:+ pretty t +:+ ")") ].

(** The rectangle of a window once [_resize_window] has run on it, for the
    work area of its monitor. *)
Definition resized_rect (work_area : RECT) (scale : Q) : RECT :=
  let '(l, t, width, height) := resize_geometry work_area scale in
  placed l t width height.

(** The body shared by [resize_to_80], [resize_to_60], [fullscreen] and the
    closures of [_create_resize_function]. *)
Definition resize_foreground (d : desktop) (scale : Q) : list effect :=
  let '(hwnd, log) := _get_foreground_window d in
  match hwnd with
  | Some hwnd => log ++ _resize_window d hwnd scale
  | None => log
  end.
End Geometry.

(** [center_window]: the window keeps its size. *)
Definition center_window (d : desktop) : list effect :=
  let '(hwnd, log) := _get_foreground_window d in
  match hwnd with
  | Some hwnd =>
      let rect := GetWindowRect d hwnd in
      let window_width := right rect - left rect in
      let window_height := bottom rect - top rect in
      let monitor_info := _get_monitor_info d hwnd in
      let work_area := Work monitor_info in
      let l := left work_area + ((right work_area - left work_area) - window_width) `div` 2 in
      let t := top work_area + ((bottom work_area - top work_area) - window_height) `div` 2 in
      log ++
      [ SetWindowPos hwnd l t window_width window_height;
        info ("Centered window " +:+ pretty hwnd +:+ " at (" +:+ pretty l +:+ ", "
              +:+ pretty t +:+ ")") ]
  | None => log
  end.

(** ** The minimize sequence *)

(** The two fields [_initialize_state_variables] creates. *)
Record sequence : Type := mkSequence {
  minimize_sequence_started : bool;
  minimize_sequence_start_time : Q
}.

Definition initial_sequence : sequence := mkSequence false 0.

(** The body of [enum_handler], called on each window handle;
    [self_hwnd] is [self.hwnd]. *)
Definition enum_handler (self_hwnd : Z) (d : desktop) (monitor_rect : RECT) (hwnd : Z)
  : list effect :=
  if negb (IsWindowVisible d hwnd) || (hwnd =? self_hwnd) then []
  else
    let window_rect := GetWindowRect d hwnd in
    if rects_intersect window_rect monitor_rect
    then [ShowWindow_MINIMIZE hwnd]
    else [].

Definition _minimize_all_windows_on_current_desktop (self_hwnd : Z) (d : desktop)
  : list effect :=
  let monitor_info := cursor_monitor d in
  let monitor_rect := Monitor monitor_info in
  flat_map (enum_handler self_hwnd d monitor_rect) (EnumWindows d)
  ++ [info "Minimized all windows on current desktop."].

(** The three conditions under which [enum_handler] minimizes a window,
    for the monitor under the cursor. *)
Definition qualifies (self_hwnd : Z) (d : desktop) (hwnd : Z) : bool :=
  IsWindowVisible d hwnd
  && negb (hwnd =? self_hwnd)
  && rects_intersect (GetWindowRect d hwnd) (Monitor (cursor_monitor d)).

(** [now] is the value [time.time()] returns at the call. *)
Definition _start_minimize_sequence (now : Q) (st : sequence) : sequence * list effect :=
  (mkSequence true now, [info "Minimize sequence started."]).

Section MinimizeSequence.
Variable fl : Q -> Q.

Definition float_sub (x y : Q) : Q := fl (x - y).

Definition _complete_minimize_sequence (self_hwnd : Z) (d : desktop) (now : Q)
    (st : sequence) : sequence * list effect :=
  let effects :=
    if minimize_sequence_started st then
      let elapsed_time := float_sub now (minimize_sequence_start_time st) in
      if Qle_bool elapsed_time 2 then
        _minimize_all_windows_on_current_desktop self_hwnd d
        ++ [info "Minimize sequence completed."]
      else [info "Minimize sequence timed out."]
    else [info "Minimize sequence not started."] in
  (mkSequence false (minimize_sequence_start_time st), effects).
End MinimizeSequence.



(** ** Strings *)

Definition code (c : ascii) : Z := Z.of_nat (nat_of_ascii c).

(** [c.isspace()] for a code point below 256. *)
Definition isspace (c : ascii) : bool :=
  let n := code c in
  ((9 <=? n) && (n <=? 13)) || ((28 <=? n) && (n <=? 32)) || (n =? 133) || (n =? 160).

(** [c.isdigit()] for a code point below 256: the decimal digits and the
    superscript digits U+00B2, U+00B3 and U+00B9. *)
Definition isdigit_char (c : ascii) : bool :=
  let n := code c in
  ((48 <=? n) && (n <=? 57)) || (n =? 178) || (n =? 179) || (n =? 185).

Fixpoint all_chars (p : ascii -> bool) (s : string) : bool :=
  match s with
  | EmptyString => true
  | String c s' => p c && all_chars p s'
  end.

(** [s.isdigit()]: at least one character, and all of them digits. *)
Definition isdigit (s : string) : bool :=
  match s with
  | EmptyString => false
  | _ => all_chars isdigit_char s
  end.

Fixpoint lstrip (s : string) : string :=
  match s with
  | EmptyString => EmptyString
  | String c s' => if isspace c then lstrip s' else s
  end.

Fixpoint rstrip (s : string) : string :=
  match s with
  | EmptyString => EmptyString
  | String c s' =>
      match rstrip s' with
      | EmptyString => if isspace c then EmptyString else String c EmptyString
      | r => String c r
      end
  end.

(** [s.strip()] *)
Definition strip (s : string) : string := rstrip (lstrip s).

(** [not s.strip()] *)
Definition blank (s : string) : bool :=
  match strip s with EmptyString => true | _ => false end.

(** [s.replace(old, new)]: the occurrences of [old] are found left to right
    and do not overlap.  [skip] counts the characters of a matched occurrence
    still to be passed over. *)
Fixpoint replace_from (old new : string) (skip : nat) (s : string) : string :=
  match s with
  | EmptyString => EmptyString
  | String c s' =>
      match skip with
      | S k => replace_from old new k s'
      | O =>
          if String.prefix old s
          then new +:+ replace_from old new (String.length old - 1) s'
          else String c (replace_from old new 0 s')
      end
  end.

Fixpoint intersperse (new s : string) : string :=
  match s with
  | EmptyString => new
  | String c s' => new +:+ String c (intersperse new s')
  end.

Definition replace (s old new : string) : string :=
  match old with
  | EmptyString => intersperse new s
  | _ => replace_from old new 0 s
  end.

(** ** Settings *)

(** [hotkey_replacements], in the order the dict literal lists its items,
    which is the order [items()] yields them.  The fourth key is the
    one-character string holding a backslash (code 92). *)
Definition hotkey_replacements : list (string * string) :=
  [ (",", "comma");
    (".", "period");
    ("/", "slash");
    (String (ascii_of_nat 92) EmptyString, "backslash");
    (";", "semicolon");
    ("'", "apostrophe");
    ("-", "minus");
    ("=", "equal");
    ("`", "grave");
    ("[", "left bracket");
    ("]", "right bracket");
    (" ", "space") ].

(** The body of the inner loop of [_load_settings]:
    [hotkey = hotkey.replace(symbol, name)]. *)
Definition replace_step (hotkey : string) (entry : string * string) : string :=
  let '(symbol, name) := entry in replace hotkey symbol name.

(** The loop itself: [for symbol, name in hotkey_replacements.items(): ...]. *)
Definition replace_special (hotkey : string) : string :=
  fold_left replace_step hotkey_replacements hotkey.

(** The string holds none of the characters of [bad]. *)
Definition avoids (bad : list ascii) (s : string) : bool :=
  all_chars (fun c => negb (existsb (Ascii.eqb c) bad)) s.

(** The characters the keys of a table are made of. *)
Definition symbol_chars (table : list (string * string)) : list ascii :=
  flat_map (fun entry => list_ascii_of_string entry.1) table.

(** A check on a replacement table: every key is one character, and every
    name holds neither its own key, nor a key listed before it, nor a
    character of [seen]. *)
Fixpoint names_avoid_symbols (seen : list ascii) (table : list (string * string)) : bool :=
  match table with
  | [] => true
  | (String a EmptyString, name) :: table' =>
      avoids (a :: seen) name && names_avoid_symbols (a :: seen) table'
  | _ => false
  end.

(** The content of settings.json.  A key the file lacks is absent from
    [shortcuts]; [startup] and [custom_actions] hold the defaults
    ([False], [[]]) when the file lacks them. *)
Record settings : Type := mkSettings {
  shortcuts : gmap string string;
  startup : bool;
  custom_actions : list (string * string)       (* percentage, hotkey *)
}.

(** What the widgets hold: the text of each shortcut entry by key, the
    start-up check box, and the rows of the tree (percentage, hotkey). *)
Record widgets : Type := mkWidgets {
  shortcuts_entries : gmap string string;
  startup_var : bool;
  tree : list (string * string)
}.

(** The widgets as [_create_widgets] leaves them. *)
Definition _create_widgets : widgets :=
  mkWidgets
    (<["resize_80" := ""]> (<["fullscreen" := ""]> (<["center" := ""]>
      (<["resize_60" := ""]> ∅))))
    false [].

(** [settings.get(key, '')] *)
Definition settings_get (s : settings) (key : string) : string :=
  default "" (shortcuts s !! key).

Definition _load_settings (s : settings) (w : widgets) : widgets :=
  mkWidgets
    (map_imap (fun key _ => Some (replace_special (settings_get s key)))
              (shortcuts_entries w))
    (startup s)
    (tree w ++ map (fun '(percentage, hotkey) => (percentage, replace_special hotkey))
                   (custom_actions s)).

(** The dictionary [save_settings] dumps to settings.json. *)
Definition saved_settings (w : widgets) : settings :=
  mkSettings (shortcuts_entries w) (startup_var w) (tree w).

(** ** The dialog for a custom action *)

(** [on_ok]: the new value of [self.result] ([None] stays [None] when the
    input is refused) and the effects. *)
Definition on_ok (percentage hotkey : string) : option (string * string) * list effect :=
  if negb (isdigit percentage) || blank hotkey then
    (None, [showerror "Error" "Please enter a valid percentage and hotkey."])
  else
    (Some (percentage, hotkey),
     [destroy;
      info ("Added custom action: " +:+ percentage +:+ "% with hotkey " +:+ hotkey)]).

(** The number a string of decimal digits writes. *)
Fixpoint decimal_value (acc : Z) (s : string) : Z :=
  match s with
  | EmptyString => acc
  | String c s' => decimal_value (10 * acc + (code c - 48)) s'
  end.

Definition isdecimal_char (c : ascii) : bool := (48 <=? code c) && (code c <=? 57).


(** ** The hotkey registry *)

(** The callables the program binds to hotkeys: the bound methods of the
    application and the closures [_create_resize_function] returns, which hold
    their percentage. *)
Inductive Callable : Type :=
  | resize_to_80
  | fullscreen
  | center
  | resize_to_60
  | resize_function (percentage : Q)
  | start_minimize_sequence
  | complete_minimize_sequence.

(** [self.hotkeys], and what the keyboard module holds under the hotkey
    strings it was given: [add_hotkey] files the binding under its string, a
    later one for the same string taking its place, and [remove_hotkey] looks
    the string up and drops it. *)
Record registry : Type := mkRegistry {
  hotkeys : gmap string Callable;
  keyboard_hotkeys : gmap string Callable
}.

Inductive exn : Type :=
  | ValueError (msg : string)
  | KeyError (key : string).

Inductive outcome (A : Type) : Type :=
  | Return (a : A)
  | Raise (e : exn).
Arguments Return {A} a.
Arguments Raise {A} e.

(** A method that reads and writes the registry, has effects, and returns or
    raises.  What was written and done before an exception stays. *)
Definition M (A : Type) : Type := registry -> outcome A * registry * list effect.

Definition ret {A : Type} (a : A) : M A := fun s => (Return a, s, []).

Definition bind {A B : Type} (m : M A) (k : A -> M B) : M B :=
  fun s =>
    match m s with
    | (Return a, s', t) => let '(r, s'', t') := k a s' in (r, s'', t ++ t')
    | (Raise e, s', t) => (Raise e, s', t)
    end.

Notation "x <- m ;; k" := (bind m (fun x => k))
  (at level 100, m at next level, right associativity).
Notation "m ;; k" := (bind m (fun _ => k))
  (at level 100, right associativity).

Definition raise {A : Type} (e : exn) : M A := fun s => (Raise e, s, []).

Definition effects (t : list effect) : M unit := fun s => (Return tt, s, t).

(** [try: body except ...: handler]; [handler e] is [None] for an exception
    no clause catches. *)
Definition try_except {A : Type} (body : M A) (handler : exn -> option (M A)) : M A :=
  fun s =>
    match body s with
    | (Raise e, s', t) =>
        match handler e with
        | Some h => let '(r, s'', t') := h s' in (r, s'', t ++ t')
        | None => (Raise e, s', t)
        end
    | r => r
    end.

(** [for x in l: body(x)] *)
Fixpoint for_each {A : Type} (l : list A) (body : A -> M unit) : M unit :=
  match l with
  | [] => ret tt
  | x :: l' => body x ;; for_each l' body
  end.

Definition state_after {A : Type} (m : M A) (s : registry) : registry := (m s).1.2.
Definition outcome_of {A : Type} (m : M A) (s : registry) : outcome A := (m s).1.1.

(** [self.hotkeys[hotkey] = action] *)
Definition hotkeys_set (hotkey : string) (action : Callable) : M unit :=
  fun s => (Return tt, mkRegistry (<[hotkey := action]> (hotkeys s)) (keyboard_hotkeys s), []).

(** [self.hotkeys.pop(hotkey, None)] *)
Definition hotkeys_pop (hotkey : string) : M unit :=
  fun s => (Return tt, mkRegistry (delete hotkey (hotkeys s)) (keyboard_hotkeys s), []).

(** [list(self.hotkeys.keys())].  Python lists the keys in the order they
    were inserted, the map in an order of its own; the order decides in which
    order the hotkeys are unregistered and logged, and no more. *)
Definition hotkeys_keys : M (list string) :=
  fun s => (Return (map_to_list (hotkeys s)).*1, s, []).

Section Registry.
(** The keyboard module parses the hotkey string it is given:
    [add_hotkey_error hotkey] is the message of the [ValueError] it raises
    for a string it cannot parse, [None] for a string it accepts. *)
Variable add_hotkey_error : string -> option string.

(** [float(s)] of a string: [None] when it raises [ValueError]. *)
Variable float : string -> option Q.

(** [keyboard.add_hotkey(hotkey, action)] *)
Definition keyboard_add_hotkey (hotkey : string) (action : Callable) : M unit :=
  fun s =>
    match add_hotkey_error hotkey with
    | Some msg => (Raise (ValueError msg), s, [])
    | None =>
        (Return tt, mkRegistry (hotkeys s) (<[hotkey := action]> (keyboard_hotkeys s)), [])
    end.

(** [keyboard.remove_hotkey(hotkey)]: a [KeyError] for a hotkey the module
    does not hold. *)
Definition keyboard_remove_hotkey (hotkey : string) : M unit :=
  fun s =>
    match keyboard_hotkeys s !! hotkey with
    | Some _ => (Return tt, mkRegistry (hotkeys s) (delete hotkey (keyboard_hotkeys s)), [])
    | None => (Raise (KeyError hotkey), s, [])
    end.

Definition py_float (s : string) : M Q :=
  match float s with
  | Some x => ret x
  | None => raise (ValueError ("could not convert string to float: '" +:+ s +:+ "'"))
  end.

Definition _register_hotkey (hotkey : string) (action : Callable) : M unit :=
  if blank hotkey then
    effects [warning "Empty hotkey provided; skipping registration."]
  else
    try_except
      (keyboard_add_hotkey hotkey action ;;
       hotkeys_set hotkey action ;;
       effects [info ("Registered hotkey: " +:+ hotkey)])
      (fun e =>
         match e with
         | ValueError msg =>
             Some (effects
               [ showerror "Error"
                   ("Failed to register hotkey '" +:+ hotkey +:+ "': " +:+ msg);
                 error ("Failed to register hotkey '" +:+ hotkey +:+ "': " +:+ msg) ])
         | _ => None
         end).

Definition _create_resize_function (percentage : Q) : Callable :=
  resize_function percentage.

Definition _register_custom_hotkey (percentage hotkey : string) : M unit :=
  p <- py_float percentage ;;
  _register_hotkey hotkey (_create_resize_function p).

Definition _unregister_hotkey (hotkey : string) : M unit :=
  try_except
    (keyboard_remove_hotkey hotkey ;;
     hotkeys_pop hotkey ;;
     effects [info ("Unregistered hotkey: " +:+ hotkey)])
    (fun e =>
       match e with
       | KeyError _ => Some (ret tt)
       | _ => None
       end).

Definition _unregister_all_hotkeys : M unit :=
  keys <- hotkeys_keys ;;
  for_each keys _unregister_hotkey.

(** [self.shortcuts_entries[key].get()]; the four keys are always there. *)
Definition entry_get (w : widgets) (key : string) : string :=
  default "" (shortcuts_entries w !! key).

(** The dict [actions] of [_register_hotkeys], in the order of its items. *)
Definition actions : list (string * Callable) :=
  [ ("resize_80", resize_to_80);
    ("fullscreen", fullscreen);
    ("center", center);
    ("resize_60", resize_to_60) ].

Definition _register_hotkeys (w : widgets) : M unit :=
  _unregister_all_hotkeys ;;
  for_each actions (fun '(key, action) =>
    let hotkey := entry_get w key in
    _register_hotkey hotkey action) ;;
  for_each (tree w) (fun '(percentage, hotkey) =>
    p <- py_float percentage ;;
    let resize_action := _create_resize_function p in
    _register_hotkey hotkey resize_action) ;;
  _register_hotkey "ctrl+shift+h" start_minimize_sequence ;;
  _register_hotkey "ctrl+shift+m" complete_minimize_sequence.
End Registry.

(** A conversion that agrees with [float] on the strings of decimal digits,
    with blanks around them allowed, and raises on every other string; on a
    string that writes a number in another way (a sign, a point, an exponent)
    [float] itself does not raise.  It serves for concrete runs only: the
    theorems on the registry hold for every conversion. *)
Definition float_of_decimal (s : string) : option Q :=
  match strip s with
  | EmptyString => None
  | d => if all_chars isdecimal_char d then Some (inject_Z (decimal_value 0 d)) else None
  end.

(** A keyboard module for which every hotkey string parses, and one that
    does not know the key name [nokey]; for concrete runs only. *)
Definition accepts_all (hotkey : string) : option string := None.

Definition rejects_nokey (hotkey : string) : option string :=
  if String.eqb hotkey "nokey" then Some "Key 'nokey' is not mapped to any known key."
  else None.

Definition empty_registry : registry := mkRegistry ∅ ∅.

(** ** Calling what a hotkey is bound to

    The keyboard listener calls the bound callable with no argument; [now] is
    what [time.time()] returns during the call. *)
Section Call.
Variable fl : Q -> Q.

Definition call (self_hwnd : Z) (d : desktop) (now : Q) (c : Callable) (st : sequence)
  : sequence * list effect :=
  match c with
  | resize_to_80 => (st, resize_foreground fl d (fl (8 # 10)))
  | fullscreen => (st, resize_foreground fl d 1)
  | center => (st, center_window d)
  | resize_to_60 => (st, resize_foreground fl d (fl (6 # 10)))
  | resize_function percentage =>
      (st, resize_foreground fl d (fl (percentage / 100)))
  | start_minimize_sequence => _start_minimize_sequence now st
  | complete_minimize_sequence => _complete_minimize_sequence fl self_hwnd d now st
  end.
End Call.

(** ** What a rebuild amounts to

    The registry a run of [_register_hotkeys] leaves is described by pure
    functions, which the theorems on the registry then relate to the
    methods. *)
Section Summary.
Variable add_hotkey_error : string -> option string.
Variable float : string -> option Q.

(** [_register_hotkey] binds the hotkey: it is not blank and the keyboard
    module accepts it. *)
Definition accepted (hotkey : string) : bool :=
  negb (blank hotkey) && match add_hotkey_error hotkey with None => true | Some _ => false end.

Definition register_step (s : registry) (binding : string * Callable) : registry :=
  let '(hotkey, action) := binding in
  if accepted hotkey
  then mkRegistry (<[hotkey := action]> (hotkeys s)) (<[hotkey := action]> (keyboard_hotkeys s))
  else s.

Definition unregister_step (s : registry) (hotkey : string) : registry :=
  match keyboard_hotkeys s !! hotkey with
  | Some _ => mkRegistry (delete hotkey (hotkeys s)) (delete hotkey (keyboard_hotkeys s))
  | None => s
  end.

(** The bindings of the rows of the tree up to the first percentage [float]
    refuses, and that percentage if there is one. *)
Fixpoint custom_bindings (rows : list (string * string))
  : list (string * Callable) * option string :=
  match rows with
  | [] => ([], None)
  | (percentage, hotkey) :: rows' =>
      match float percentage with
      | None => ([], Some percentage)
      | Some p =>
          let '(l, refused) := custom_bindings rows' in
          ((hotkey, resize_function p) :: l, refused)
      end
  end.

(** The calls of [_register_hotkey] a run of [_register_hotkeys] makes, in
    order. *)
Definition planned (w : widgets) : list (string * Callable) :=
  map (fun '(key, action) => (entry_get w key, action)) actions
  ++ (custom_bindings (tree w)).1
  ++ match (custom_bindings (tree w)).2 with
     | None => [("ctrl+shift+h", start_minimize_sequence);
                ("ctrl+shift+m", complete_minimize_sequence)]
     | Some _ => []
     end.

(** How the loop over the rows ends, and with it [_register_hotkeys]. *)
Definition rebuild_outcome (w : widgets) : outcome unit :=
  match (custom_bindings (tree w)).2 with
  | None => Return tt
  | Some percentage =>
      Raise (ValueError ("could not convert string to float: '" +:+ percentage +:+ "'"))
  end.

(** The bindings that a list of calls of [_register_hotkey] leaves, a later
    call for a hotkey replacing an earlier one. *)
Definition bound (l : list (string * Callable)) : gmap string Callable :=
  fold_left (fun m '(hotkey, action) => if accepted hotkey then <[hotkey := action]> m else m)
            l ∅.
End Summary.

(** The keyboard module knows every hotkey [self.hotkeys] holds.  This is so
    at start-up, and a run keeps it so. *)
Definition consistent (s : registry) : Prop :=
  forall j, is_Some (hotkeys s !! j) -> is_Some (keyboard_hotkeys s !! j).

(** ** The listener delivering hotkeys

    The keyboard listener calls the callables one after another; an event
    is the time of the call and the callable called. *)
Section Deliver.
Variable fl : Q -> Q.

Fixpoint deliver (self_hwnd : Z) (d : desktop) (events : list (Q * Callable))
    (st : sequence) : sequence * list effect :=
  match events with
  | [] => (st, [])
  | (now, c) :: events' =>
      let '(st', t) := call fl self_hwnd d now c st in
      let '(st'', t') := deliver self_hwnd d events' st' in
      (st'', t ++ t')
  end.
End Deliver.

(** The log line of a completed minimize sequence, and the callable that
    starts one. *)
Definition is_completed (e : effect) : bool :=
  match e with
  | info msg => String.eqb msg "Minimize sequence completed."
  | _ => false
  end.

Definition is_start (c : Callable) : bool :=
  match c with
  | start_minimize_sequence => true
  | _ => false
  end.

(** The callables that resize or center the foreground window. *)
Definition moves_window (c : Callable) : bool :=
  match c with
  | start_minimize_sequence | complete_minimize_sequence => false
  | _ => true
  end.

(** ** The application as a whole *)


(** The widgets, the content of settings.json ([None] when there is no such
    file) and the registry. *)
Record WindowManagerApp : Type := mkApp {
  app_widgets : widgets;
  settings_json : option settings;
  app_registry : registry
}.

(** The [try] at the head of [_load_settings]: the settings it goes on with,
    and its log line.  A file is taken to hold what [save_settings] writes:
    strings under the shortcut keys, a boolean, a list of rows. *)
Definition read_settings (file : option settings) : settings * list effect :=
  match file with
  | Some s => (s, [info "Settings loaded from settings.json."])
  | None => (mkSettings ∅ false [],
             [warning "Settings file not found. Using default settings."])
  end.

(** [tree.insert('', 'end', values=(percentage, hotkey))] *)
Definition tree_insert_end (w : widgets) (percentage hotkey : string) : widgets :=
  mkWidgets (shortcuts_entries w) (startup_var w) (tree w ++ [(percentage, hotkey)]).

(** [tree.delete(item)], a row being named by its position. *)
Definition tree_delete (w : widgets) (item : nat) : widgets :=
  mkWidgets (shortcuts_entries w) (startup_var w) (delete item (tree w)).

Section Application.
Variable add_hotkey_error : string -> option string.
Variable float : string -> option Q.

(** [_setup_ui], in a process that just started: no hotkey is held. *)
Definition _setup_ui (file : option settings) : outcome unit * WindowManagerApp * list effect :=
  let '(s, log) := read_settings file in
  let w := _load_settings s _create_widgets in
  let '(r, reg, t) := _register_hotkeys add_hotkey_error float w empty_registry in
  (r, mkApp w file reg, log ++ t).

(** [save_settings]: the file is written, then the hotkeys are registered
    anew.  The write itself is taken to succeed. *)
Definition save_settings (a : WindowManagerApp) : outcome unit * WindowManagerApp * list effect :=
  let settings := saved_settings (app_widgets a) in
  let '(r, reg, t) :=
    _register_hotkeys add_hotkey_error float (app_widgets a) (app_registry a) in
  (r, mkApp (app_widgets a) (Some settings) reg,
   info "Settings saved to settings.json." :: t).

(** [add_custom_action]; [result] is [dialog.result] once the dialog is
    closed. *)
Definition add_custom_action (result : option (string * string)) (a : WindowManagerApp)
  : outcome unit * WindowManagerApp * list effect :=
  match result with
  | Some (percentage, hotkey) =>
      let w := tree_insert_end (app_widgets a) percentage hotkey in
      match _register_custom_hotkey add_hotkey_error float percentage hotkey
              (app_registry a) with
      | (Return _, reg, t) =>
          let '(r, a', t') := save_settings (mkApp w (settings_json a) reg) in
          (r, a', t ++ t')
      | (Raise e, reg, t) => (Raise e, mkApp w (settings_json a) reg, t)
      end
  | None => (Return tt, a, [])
  end.

(** [remove_custom_action]; [selection] is [self.tree.selection()], the
    positions of the selected rows, each one a row of the tree. *)
Definition remove_custom_action (selection : list nat) (a : WindowManagerApp)
  : outcome unit * WindowManagerApp * list effect :=
  match selection with
  | [] => (Return tt, a, [])
  | item :: _ =>
      match tree (app_widgets a) !! item with
      | Some (percentage, hotkey) =>
          match _unregister_hotkey hotkey (app_registry a) with
          | (Return _, reg, t) =>
              let w := tree_delete (app_widgets a) item in
              let '(r, a', t') := save_settings (mkApp w (settings_json a) reg) in
              (r, a', t ++ t')
          | (Raise e, reg, t) => (Raise e, mkApp (app_widgets a) (settings_json a) reg, t)
          end
      | None => (Return tt, a, [])
      end
  end.
End Application.

(** The twelve characters [_load_settings] rewrites. *)
Definition special_chars : list ascii := symbol_chars hotkey_replacements.

(** ** Starting with Windows *)

Definition app_name : string := "WindowManagerApp".

(** A path between double quotes (code 34). *)
Definition quoted (path : string) : string :=
  String (ascii_of_nat 34) path +:+ String (ascii_of_nat 34) EmptyString.

(** [set_startup] on the values of the Run key of the current user, by name;
    the key itself exists, so that [OpenKey] succeeds.
    [frozen], [executable] and [script] are [getattr(sys, 'frozen', False)],
    [sys.executable] and [os.path.abspath(__file__)]. *)
Definition set_startup (frozen : bool) (executable script : string) (enable : bool)
    (run_key : gmap string string) : gmap string string * list effect :=
  let exe_path := if frozen then quoted executable else quoted script in
  if enable then
    (<[app_name := exe_path]> run_key, [info "Set application to start with Windows."])
  else
    match run_key !! app_name with
    | Some _ => (delete app_name run_key, [info "Removed application from Windows startup."])
    | None => (run_key, [])
    end.


(** * Properties *)

(** ** The intersection test *)

Lemma rects_intersect_true (a b : RECT) :
  rects_intersect a b = true <->
  left a < right b /\ left b < right a /\ top a < bottom b /\ top b < bottom a.
Proof.
  unfold rects_intersect.
  rewrite negb_true_iff, !orb_false_iff, Z.geb_leb, !Z.leb_gt, Z.geb_leb, Z.leb_gt.
  lia.
Qed.

Lemma rects_intersect_false (a b : RECT) :
  rects_intersect a b = false <->
  left a >= right b \/ right a <= left b \/ top a >= bottom b \/ bottom a <= top b.
Proof.
  destruct (rects_intersect a b) eqn:E.
  - apply rects_intersect_true in E. split; [discriminate | lia].
  - split; [intros _ | reflexivity].
    destruct (Z_lt_dec (left a) (right b)); [| lia].
    destruct (Z_lt_dec (left b) (right a)); [| lia].
    destruct (Z_lt_dec (top a) (bottom b)); [| lia].
    destruct (Z_lt_dec (top b) (bottom a)); [| lia].
    assert (rects_intersect a b = true) by (apply rects_intersect_true; lia).
    congruence.
Qed.

(** C4. [rects_intersect a b] is true exactly when none of
    [a.left >= b.right], [a.right <= b.left], [a.top >= b.bottom],
    [a.bottom <= b.top] holds.  Rectangles that touch at an edge do not
    intersect, as (0,0,100,100) and (100,0,200,100), and [enum_handler]
    issues no instruction for a window whose rectangle only touches the
    monitor rectangle. *)
Theorem rects_intersect_open_interval (a b : RECT) :
  (rects_intersect a b = true <->
     ~ (left a >= right b \/ right a <= left b \/ top a >= bottom b \/ bottom a <= top b))
  /\ (touch_at_edge a b -> rects_intersect a b = false)
  /\ rects_intersect (mkRECT 0 0 100 100) (mkRECT 100 0 200 100) = false
  /\ (forall self_hwnd d hwnd,
        touch_at_edge (GetWindowRect d hwnd) b ->
        enum_handler self_hwnd d b hwnd = []).
Proof.
  assert (T : forall x y, touch_at_edge x y -> rects_intersect x y = false).
  { intros x y H. apply rects_intersect_false. unfold touch_at_edge in H. lia. }
  split; [| split; [apply T | split; [reflexivity |]]].
  - rewrite rects_intersect_true. lia.
  - intros self_hwnd d hwnd H. unfold enum_handler.
    rewrite (T _ _ H). now destruct (negb _ || _).
Qed.

Lemma rects_intersect_open_interval_witness :
  touch_at_edge (mkRECT 0 0 100 100) (mkRECT 100 0 200 100)
  /\ rects_intersect (mkRECT 0 0 100 100) (mkRECT 100 0 200 100) = false.
Proof.
  assert (H : touch_at_edge (mkRECT 0 0 100 100) (mkRECT 100 0 200 100))
    by (left; reflexivity).
  split; [exact H |].
  exact (proj1 (proj2 (rects_intersect_open_interval _ _)) H).
Defined.

(** C9, as the code has it.  A rectangle of zero width intersects [b]
    exactly when its vertical line lies strictly between the left and right
    edges of [b] and the two overlap vertically; likewise for zero height.
    So the test is false for a degenerate rectangle on or outside the edges
    of [b], and true for one strictly inside. *)
Theorem degenerate_rect_intersection (a b : RECT) :
  (left a = right a ->
     (rects_intersect a b = true <->
        left b < left a < right b /\ top a < bottom b /\ top b < bottom a))
  /\ (top a = bottom a ->
     (rects_intersect a b = true <->
        top b < top a < bottom b /\ left a < right b /\ left b < right a)).
Proof.
  split; intros H; rewrite rects_intersect_true; lia.
Qed.

Lemma degenerate_rect_intersection_witness :
  rects_intersect (mkRECT 5 0 5 10) (mkRECT 0 0 10 10) = true <->
  0 < 5 < 10 /\ 0 < 10 /\ 0 < 10.
Proof.
  exact (proj1 (degenerate_rect_intersection (mkRECT 5 0 5 10) (mkRECT 0 0 10 10))
               eq_refl).
Defined.

(** C9 as stated fails: a zero-width rectangle inside another intersects it. *)
Lemma degenerate_rect_intersects :
  left (mkRECT 5 0 5 10) = right (mkRECT 5 0 5 10)
  /\ rects_intersect (mkRECT 5 0 5 10) (mkRECT 0 0 10 10) = true.
Proof. split; reflexivity. Qed.

(** ** The geometry of a resize *)

Lemma int_nonneg (x : Q) : (0 <= x)%Q -> int x = Qfloor x.
Proof.
  intros H. unfold int, Qfloor. destruct x as [n d]; simpl.
  apply Z.quot_div_nonneg; [| lia].
  unfold Qle in H; simpl in H. lia.
Qed.

Section Rounding.
Variable fl : Q -> Q.
Hypothesis fl_monotone : forall x y : Q, (x <= y)%Q -> (fl x <= fl y)%Q.
Hypothesis fl_zero : (fl 0 == 0)%Q.

Lemma int_mul_float_bounds (n : Z) (s : Q) :
  (fl (inject_Z n) == inject_Z n)%Q -> 0 <= n -> (0 < s)%Q -> (s <= 1)%Q ->
  (0 <= int_mul_float fl n s)%Q /\ (int_mul_float fl n s <= inject_Z n)%Q.
Proof.
  intros Hn Hpos Hs0 Hs1. unfold int_mul_float.
  assert (Hq : (0 <= inject_Z n)%Q) by (change 0%Q with (inject_Z 0); rewrite <- Zle_Qle; exact Hpos).
  split.
  - rewrite <- fl_zero. apply fl_monotone. rewrite Hn.
    apply Qmult_le_0_compat; [exact Hq | apply Qlt_le_weak, Hs0].
  - apply Qle_trans with (fl (inject_Z n)); [| rewrite Hn; apply Qle_refl].
    apply fl_monotone. rewrite Hn.
    rewrite <- (Qmult_1_l (inject_Z n)) at 2.
    rewrite (Qmult_comm (inject_Z n)).
    apply Qmult_le_compat_r; assumption.
Qed.

Lemma int_of_product (n : Z) (s : Q) :
  (fl (inject_Z n) == inject_Z n)%Q -> 0 <= n -> (0 < s)%Q -> (s <= 1)%Q ->
  int (int_mul_float fl n s) = Qfloor (int_mul_float fl n s)
  /\ 0 <= int (int_mul_float fl n s) <= n.
Proof.
  intros Hn Hpos Hs0 Hs1.
  destruct (int_mul_float_bounds n s Hn Hpos Hs0 Hs1) as [Hlo Hhi].
  rewrite (int_nonneg _ Hlo). split; [reflexivity |]. split.
  - change 0 with (Qfloor (inject_Z 0)). apply Qfloor_resp_le. exact Hlo.
  - rewrite <- (Qfloor_Z n) at 2. apply Qfloor_resp_le. exact Hhi.
Qed.
End Rounding.

Lemma centred_gap (L R width : Z) :
  0 <= width <= R - L ->
  let l := L + ((R - L) - width) `div` 2 in
  L <= l /\ l + width <= R /\ Z.abs ((l - L) - (R - (l + width))) <= 1.
Proof.
  intros H l. subst l.
  pose proof (Z.div_mod ((R - L) - width) 2 ltac:(lia)) as E.
  pose proof (Z.mod_pos_bound ((R - L) - width) 2 ltac:(lia)) as B.
  lia.
Qed.

(** C2. For a work area [W] with [right >= left] and [bottom >= top] and a
    scale [s] with [0 < s <= 1], the rectangle [_resize_window] gives the
    window has width [floor(width(W) * s)] and height [floor(height(W) * s)],
    the products being those the program computes; its left edge is
    [W.left + floor((width(W) - width) / 2)], its top edge likewise; it lies
    within [W]; and its gaps to the left and right edges of [W] differ by at
    most 1, as do its gaps to the top and bottom edges.  The rounding [fl] is
    any that is monotone and exact on 0 and on the two extents of [W], as
    rounding to binary64 is for extents below 2^53. *)
Theorem scaled_rect_contained_centered (fl : Q -> Q) (W : RECT) (s : Q) :
  (forall x y : Q, (x <= y)%Q -> (fl x <= fl y)%Q) ->
  (fl 0 == 0)%Q ->
  (fl (inject_Z (right W - left W)) == inject_Z (right W - left W))%Q ->
  (fl (inject_Z (bottom W - top W)) == inject_Z (bottom W - top W))%Q ->
  left W <= right W -> top W <= bottom W ->
  (0 < s)%Q -> (s <= 1)%Q ->
  let r := resized_rect fl W s in
  let width := right r - left r in
  let height := bottom r - top r in
  (width = Qfloor (int_mul_float fl (right W - left W) s)
   /\ height = Qfloor (int_mul_float fl (bottom W - top W) s)
   /\ left r = left W + ((right W - left W) - width) `div` 2
   /\ top r = top W + ((bottom W - top W) - height) `div` 2)
  /\ (left W <= left r /\ left r <= right r /\ right r <= right W
      /\ top W <= top r /\ top r <= bottom r /\ bottom r <= bottom W)
  /\ Z.abs ((left r - left W) - (right W - right r)) <= 1
  /\ Z.abs ((top r - top W) - (bottom W - bottom r)) <= 1.
Proof.
  intros Hmono H0 Hw Hh Hx Hy Hs0 Hs1.
  destruct (int_of_product fl Hmono H0 (right W - left W) s Hw ltac:(lia) Hs0 Hs1)
    as [Ew Bw].
  destruct (int_of_product fl Hmono H0 (bottom W - top W) s Hh ltac:(lia) Hs0 Hs1)
    as [Eh Bh].
  pose proof (centred_gap (left W) (right W) _ Bw) as Cw.
  pose proof (centred_gap (top W) (bottom W) _ Bh) as Ch.
  unfold resized_rect, resize_geometry, placed; simpl.
  rewrite <- Ew, <- Eh.
  set (width := int (int_mul_float fl (right W - left W) s)) in *.
  set (height := int (int_mul_float fl (bottom W - top W) s)) in *.
  simpl in Cw, Ch.
  replace (left W + (right W - left W - width) `div` 2 + width
           - (left W + (right W - left W - width) `div` 2)) with width by lia.
  replace (top W + (bottom W - top W - height) `div` 2 + height
           - (top W + (bottom W - top W - height) `div` 2)) with height by lia.
  repeat split; try reflexivity; lia.
Qed.

Lemma scaled_rect_contained_centered_witness :
  let W := mkRECT 0 0 1920 1041 in
  let r := resized_rect (fun x => x) W (8 # 10) in
  r = mkRECT 192 104 1728 936
  /\ (left W <= left r /\ left r <= right r /\ right r <= right W
      /\ top W <= top r /\ top r <= bottom r /\ bottom r <= bottom W)
  /\ Z.abs ((left r - left W) - (right W - right r)) <= 1
  /\ Z.abs ((top r - top W) - (bottom W - bottom r)) <= 1.
Proof.
  split; [reflexivity |].
  refine (proj2 (scaled_rect_contained_centered (fun x => x) (mkRECT 0 0 1920 1041)
                   (8 # 10) (fun x y H => H) _ _ _ _ _ _ _)).
  - reflexivity.
  - reflexivity.
  - reflexivity.
  - simpl; lia.
  - simpl; lia.
  - reflexivity.
  - unfold Qle; simpl; lia.
Defined.

(** ** Minimize-all *)

Lemma enum_handler_qualifies (self_hwnd : Z) (d : desktop) (hwnd : Z) :
  enum_handler self_hwnd d (Monitor (cursor_monitor d)) hwnd =
  if qualifies self_hwnd d hwnd then [ShowWindow_MINIMIZE hwnd] else [].
Proof.
  unfold enum_handler, qualifies.
  destruct (IsWindowVisible d hwnd), (hwnd =? self_hwnd); simpl; try reflexivity.
Qed.

Lemma flat_map_enum_handler (self_hwnd : Z) (d : desktop) (l : list Z) :
  flat_map (enum_handler self_hwnd d (Monitor (cursor_monitor d))) l =
  map ShowWindow_MINIMIZE (List.filter (qualifies self_hwnd d) l).
Proof.
  induction l as [| h l IH]; simpl; [reflexivity |].
  rewrite enum_handler_qualifies, IH.
  destruct (qualifies self_hwnd d h); reflexivity.
Qed.

(** C5. The batch issues [ShowWindow(hwnd, SW_MINIMIZE)], in enumeration
    order, for exactly the enumerated windows that are visible, are not the
    application's own window, and whose rectangle intersects the [Monitor]
    rectangle of the monitor under the cursor; it issues nothing else but one
    log line, and the [Work] rectangle and the flags of the monitor play no
    part. *)
Theorem minimize_all_exactly_qualifying (self_hwnd : Z) (d : desktop) :
  _minimize_all_windows_on_current_desktop self_hwnd d =
    map ShowWindow_MINIMIZE (List.filter (qualifies self_hwnd d) (EnumWindows d))
    ++ [info "Minimized all windows on current desktop."]
  /\ (forall hwnd,
        In (ShowWindow_MINIMIZE hwnd) (_minimize_all_windows_on_current_desktop self_hwnd d)
        <-> In hwnd (EnumWindows d)
            /\ IsWindowVisible d hwnd = true
            /\ hwnd <> self_hwnd
            /\ rects_intersect (GetWindowRect d hwnd) (Monitor (cursor_monitor d)) = true)
  /\ (forall work flags,
        _minimize_all_windows_on_current_desktop self_hwnd
          (mkDesktop (GetForegroundWindow d) (monitor_of_window d)
             (mkMonitorInfo (Monitor (cursor_monitor d)) work flags)
             (EnumWindows d) (IsWindowVisible d) (GetWindowRect d))
        = _minimize_all_windows_on_current_desktop self_hwnd d).
Proof.
  assert (E : forall d', _minimize_all_windows_on_current_desktop self_hwnd d' =
    map ShowWindow_MINIMIZE (List.filter (qualifies self_hwnd d') (EnumWindows d'))
    ++ [info "Minimized all windows on current desktop."]).
  { intros d'. unfold _minimize_all_windows_on_current_desktop.
    now rewrite flat_map_enum_handler. }
  split; [apply E | split].
  - intros hwnd. rewrite E, in_app_iff, in_map_iff. split.
    + intros [(h & Eh & Hin) | [Hin | []]]; [| discriminate].
      injection Eh as ->. apply filter_In in Hin as [Hin Hq].
      unfold qualifies in Hq. rewrite !andb_true_iff, negb_true_iff, Z.eqb_neq in Hq.
      tauto.
    + intros (Hin & Hv & Hne & Hi). left. exists hwnd. split; [reflexivity |].
      apply filter_In. split; [exact Hin |].
      unfold qualifies. rewrite Hv, Hi. apply Z.eqb_neq in Hne. now rewrite Hne.
  - intros work flags. rewrite !E. reflexivity.
Qed.

Lemma minimize_all_exactly_qualifying_witness :
  let d := mkDesktop 11 (fun _ => mkMonitorInfo (mkRECT 0 0 100 100) (mkRECT 0 0 100 60) 1)
             (mkMonitorInfo (mkRECT 0 0 100 100) (mkRECT 0 0 100 60) 1)
             [10; 11; 12; 13; 14]
             (fun h => negb (h =? 12))
             (fun h => if h =? 13 then mkRECT 100 0 200 100
                       else if h =? 14 then mkRECT 10 70 90 95
                       else mkRECT 10 10 50 50) in
  _minimize_all_windows_on_current_desktop 10 d =
    [ShowWindow_MINIMIZE 11; ShowWindow_MINIMIZE 14;
     info "Minimized all windows on current desktop."]
  /\ In (ShowWindow_MINIMIZE 14) (_minimize_all_windows_on_current_desktop 10 d).
Proof.
  intros d. split; [reflexivity |].
  apply (proj1 (proj2 (minimize_all_exactly_qualifying 10 d)) 14).
  repeat split; [simpl; tauto | discriminate].
Defined.

(** ** The minimize sequence *)




(** ** Blank strings *)

Lemma lstrip_cases (s : string) :
  (all_chars isspace s = true /\ lstrip s = EmptyString)
  \/ (all_chars isspace s = false
      /\ exists c t, lstrip s = String c t /\ isspace c = false).
Proof.
  induction s as [| c s IH]; simpl; [left; split; reflexivity |].
  destruct (isspace c) eqn:E; simpl; [exact IH |].
  right. split; [reflexivity |]. exists c, s. split; [reflexivity | exact E].
Qed.

Lemma rstrip_nonspace (c : ascii) (t : string) :
  isspace c = false -> rstrip (String c t) <> EmptyString.
Proof.
  intros E. simpl. destruct (rstrip t); [rewrite E |]; discriminate.
Qed.

Lemma blank_all_space (s : string) : blank s = all_chars isspace s.
Proof.
  unfold blank, strip.
  destruct (lstrip_cases s) as [[-> ->] | [-> (c & t & -> & E)]]; [reflexivity |].
  pose proof (rstrip_nonspace c t E) as N.
  destruct (rstrip (String c t)); [contradiction | reflexivity].
Qed.

(** ** Registering a blank hotkey *)

(** C7. For a hotkey string that is empty or holds only whitespace,
    [_register_hotkey] returns with the registry as it was, [self.hotkeys]
    and the table of the keyboard module alike, after logging one warning. *)
Theorem register_blank_hotkey_noop (add_hotkey_error : string -> option string)
    (hotkey : string) (action : Callable) (s : registry) :
  all_chars isspace hotkey = true ->
  _register_hotkey add_hotkey_error hotkey action s =
    (Return tt, s, [warning "Empty hotkey provided; skipping registration."]).
Proof.
  intros H. unfold _register_hotkey. rewrite blank_all_space, H. reflexivity.
Qed.

Lemma register_blank_hotkey_noop_witness :
  _register_hotkey rejects_nokey "  " resize_to_80
    (mkRegistry {["ctrl+alt+5" := resize_function 75]} {["ctrl+alt+5" := resize_function 75]})
  = (Return tt,
     mkRegistry {["ctrl+alt+5" := resize_function 75]} {["ctrl+alt+5" := resize_function 75]},
     [warning "Empty hotkey provided; skipping registration."]).
Proof.
  apply (register_blank_hotkey_noop rejects_nokey "  " resize_to_80). reflexivity.
Defined.

(** ** The dialog *)




(** ** Normalisation of special characters *)

Lemma avoids_app (bad : list ascii) (s t : string) :
  avoids bad (s +:+ t) = avoids bad s && avoids bad t.
Proof.
  unfold avoids. induction s as [| c s IH]; simpl; [reflexivity |].
  now rewrite IH, andb_assoc.
Qed.

Lemma avoids_String (bad : list ascii) (c : ascii) (s : string) :
  avoids bad (String c s) = negb (existsb (Ascii.eqb c) bad) && avoids bad s.
Proof. reflexivity. Qed.

Lemma avoids_nil (s : string) : avoids [] s = true.
Proof. induction s as [| c s IH]; [reflexivity | exact IH]. Qed.

Lemma avoids_incl (bad bad' : list ascii) (s : string) :
  (forall c, In c bad' -> In c bad) -> avoids bad s = true -> avoids bad' s = true.
Proof.
  intros Hin. unfold avoids. induction s as [| c s IH]; simpl; [reflexivity |].
  rewrite !andb_true_iff, !negb_true_iff. intros [Hc Hs]. split; [| auto].
  destruct (existsb (Ascii.eqb c) bad') eqn:E; [| reflexivity].
  apply existsb_exists in E as (x & Hx & Ex).
  rewrite <- Hc. symmetry. apply existsb_exists. exists x. auto.
Qed.

Lemma replace_one_char (a c : ascii) (new s : string) :
  replace (String c s) (String a EmptyString) new =
  if Ascii.eqb a c then new +:+ replace s (String a EmptyString) new
  else String c (replace s (String a EmptyString) new).
Proof.
  unfold replace. simpl.
  assert (P : String.prefix EmptyString s = true) by (destruct s; reflexivity).
  destruct (ascii_dec a c) as [-> | N].
  - rewrite Ascii.eqb_refl, P. reflexivity.
  - apply Ascii.eqb_neq in N. rewrite N. reflexivity.
Qed.

Lemma replace_empty (a : ascii) (new : string) :
  replace EmptyString (String a EmptyString) new = EmptyString.
Proof. reflexivity. Qed.

(** Replacing a character a string does not hold changes nothing. *)
Lemma replace_absent (a : ascii) (new s : string) :
  avoids [a] s = true -> replace s (String a EmptyString) new = s.
Proof.
  induction s as [| c s IH]; [reflexivity |].
  intros H. unfold avoids in H; simpl in H.
  rewrite orb_false_r, andb_true_iff, negb_true_iff in H. destruct H as [N H].
  rewrite replace_one_char, Ascii.eqb_sym, N.
  f_equal. apply IH, H.
Qed.

(** After the replacement the character is gone, and what the string avoided
    before it still avoids, if the new text avoids it too. *)
Lemma replace_avoids (seen : list ascii) (a : ascii) (new s : string) :
  avoids (a :: seen) new = true ->
  avoids seen s = true ->
  avoids (a :: seen) (replace s (String a EmptyString) new) = true.
Proof.
  intros Hnew. induction s as [| c s IH]; [reflexivity |].
  intros H. assert (H' := H). unfold avoids in H'; simpl in H'.
  apply andb_true_iff in H' as [Hc Hs].
  rewrite replace_one_char. destruct (Ascii.eqb a c) eqn:E.
  - rewrite avoids_app, Hnew. apply IH, Hs.
  - rewrite avoids_String, (IH Hs), andb_true_r. simpl.
    rewrite Ascii.eqb_sym, E. exact Hc.
Qed.

Lemma fold_replace_avoids (table : list (string * string)) :
  forall (seen : list ascii) (s : string),
    names_avoid_symbols seen table = true ->
    avoids seen s = true ->
    avoids (rev (symbol_chars table) ++ seen) (fold_left replace_step table s) = true.
Proof.
  induction table as [| [k name] table IH]; intros seen s Ht Hs; [exact Hs |].
  destruct k as [| a [| ? ?]]; simpl in Ht; try discriminate.
  apply andb_true_iff in Ht as [Hname Ht].
  simpl. rewrite <- app_assoc. simpl.
  apply IH; [exact Ht |]. apply replace_avoids; assumption.
Qed.

Lemma fold_replace_absent (table : list (string * string)) :
  forall (seen : list ascii) (s : string),
    names_avoid_symbols seen table = true ->
    avoids (symbol_chars table) s = true ->
    fold_left replace_step table s = s.
Proof.
  induction table as [| [k name] table IH]; intros seen s Ht Hs; [reflexivity |].
  destruct k as [| a [| ? ?]]; simpl in Ht; try discriminate.
  apply andb_true_iff in Ht as [_ Ht].
  change (symbol_chars ((String a EmptyString, name) :: table))
    with (a :: symbol_chars table) in Hs.
  change (fold_left replace_step ((String a EmptyString, name) :: table) s)
    with (fold_left replace_step table (replace s (String a EmptyString) name)).
  rewrite replace_absent.
  - apply (IH (a :: seen)); [exact Ht |].
    revert Hs. apply avoids_incl. intros c Hc. right. exact Hc.
  - revert Hs. apply avoids_incl. intros c [<- | []]. left. reflexivity.
Qed.

Lemma replace_special_idempotent (x : string) :
  replace_special (replace_special x) = replace_special x.
Proof.
  unfold replace_special.
  apply (fold_replace_absent hotkey_replacements []); [reflexivity |].
  pose proof (fold_replace_avoids hotkey_replacements [] x eq_refl (avoids_nil x)) as H.
  revert H. apply avoids_incl. intros c Hc.
  apply in_or_app. left. apply in_rev. rewrite rev_involutive. exact Hc.
Qed.

(** C3. Applying the twelve replacements of [_load_settings] to a string
    they were already applied to changes nothing.  So the settings saved
    from widgets that were loaded load back into the same widgets: the same
    shortcut strings, start-up flag and custom actions. *)
Theorem replace_special_stable :
  (forall x : string, replace_special (replace_special x) = replace_special x)
  /\ (forall s : settings,
        let w := _load_settings s _create_widgets in
        _load_settings (saved_settings w) _create_widgets = w).
Proof.
  split; [exact replace_special_idempotent |].
  intros s w. subst w. unfold _load_settings, saved_settings.
  cbn [shortcuts_entries startup_var tree shortcuts startup custom_actions].
  change (tree _create_widgets) with (@nil (string * string)).
  generalize (shortcuts_entries _create_widgets). intros entries.
  f_equal.
  - apply map_eq. intros key. rewrite !map_lookup_imap.
    destruct (entries !! key) as [e |] eqn:E; simpl; [| reflexivity].
    unfold settings_get at 1. cbn [shortcuts].
    rewrite map_lookup_imap, E. simpl.
    now rewrite replace_special_idempotent.
  - simpl. rewrite map_map. apply map_ext. intros [p h].
    now rewrite replace_special_idempotent.
Qed.

Example replace_special_comma : replace_special "ctrl+," = "ctrl+comma".
Proof. reflexivity. Qed.

(** The name of a bracket holds a space, which the last replacement rewrites. *)
Example replace_special_bracket : replace_special "alt+[" = "alt+leftspacebracket".
Proof. reflexivity. Qed.

(** ** The registry *)

Lemma registry_eq (a b : registry) :
  hotkeys a = hotkeys b -> keyboard_hotkeys a = keyboard_hotkeys b -> a = b.
Proof. destruct a, b; simpl; intros -> ->; reflexivity. Qed.

Section RegistryFacts.
Variable add_hotkey_error : string -> option string.
Variable float : string -> option Q.

Lemma register_hotkey_run (hotkey : string) (action : Callable) (s : registry) :
  exists t, _register_hotkey add_hotkey_error hotkey action s =
            (Return tt, register_step add_hotkey_error s (hotkey, action), t).
Proof.
  unfold _register_hotkey, register_step, accepted.
  destruct (blank hotkey); simpl; [eexists; reflexivity |].
  unfold try_except, bind, keyboard_add_hotkey.
  destruct (add_hotkey_error hotkey); simpl; eexists; reflexivity.
Qed.

Lemma unregister_hotkey_run (hotkey : string) (s : registry) :
  exists t, _unregister_hotkey hotkey s = (Return tt, unregister_step s hotkey, t).
Proof.
  unfold _unregister_hotkey, unregister_step, try_except, bind, keyboard_remove_hotkey.
  destruct (keyboard_hotkeys s !! hotkey); simpl; eexists; reflexivity.
Qed.

Lemma bind_run {A B : Type} (m : M A) (k : A -> M B) (s s' s'' : registry)
    (a : A) (r : outcome B) (t t' : list effect) :
  m s = (Return a, s', t) -> k a s' = (r, s'', t') -> bind m k s = (r, s'', t ++ t').
Proof. intros E1 E2. unfold bind. now rewrite E1, E2. Qed.

Lemma bind_raise {A B : Type} (m : M A) (k : A -> M B) (s s' : registry)
    (e : exn) (t : list effect) :
  m s = (Raise e, s', t) -> bind m k s = (Raise e, s', t).
Proof. intros E. unfold bind. now rewrite E. Qed.

(** A loop whose body always returns. *)
Lemma for_each_run {A : Type} (body : A -> M unit) (step : registry -> A -> registry) :
  (forall x s, exists t, body x s = (Return tt, step s x, t)) ->
  forall l s, exists t, for_each l body s = (Return tt, fold_left step l s, t).
Proof.
  intros Hbody. induction l as [| x l IH]; intros s; simpl; [eexists; reflexivity |].
  unfold bind. destruct (Hbody x s) as [t ->].
  destruct (IH (step s x)) as [t' ->]. eexists; reflexivity.
Qed.

Lemma unregister_all_run (s : registry) :
  exists t, _unregister_all_hotkeys s =
            (Return tt, fold_left unregister_step (map_to_list (hotkeys s)).*1 s, t).
Proof.
  unfold _unregister_all_hotkeys, bind, hotkeys_keys.
  destruct (for_each_run _unregister_hotkey unregister_step unregister_hotkey_run
              (map_to_list (hotkeys s)).*1 s) as [t ->].
  eexists; reflexivity.
Qed.

(** The loop over the rows of the tree stops at the first percentage that
    [float] refuses. *)
Lemma custom_loop_run (rows : list (string * string)) :
  forall s, exists t,
    for_each rows (fun '(percentage, hotkey) =>
      p <- py_float float percentage ;;
      let resize_action := _create_resize_function p in
      _register_hotkey add_hotkey_error hotkey resize_action) s
    = (match (custom_bindings float rows).2 with
       | None => Return tt
       | Some percentage =>
           Raise (ValueError ("could not convert string to float: '" +:+ percentage +:+ "'"))
       end,
       fold_left (register_step add_hotkey_error) (custom_bindings float rows).1 s, t).
Proof.
  induction rows as [| [percentage hotkey] rows IH]; intros s.
  - eexists. reflexivity.
  - cbn [for_each custom_bindings]. unfold bind at 1 2. unfold py_float at 1.
    destruct (float percentage) as [p |].
    + unfold ret at 1. cbn beta iota.
      destruct (register_hotkey_run hotkey (_create_resize_function p) s) as [t ->].
      destruct (IH (register_step add_hotkey_error s (hotkey, _create_resize_function p)))
        as (t' & E).
      cbv zeta in E |- *. rewrite E. clear E.
      destruct (custom_bindings float rows) as [l [refused |]]; cbn [fst snd fold_left];
        eexists; reflexivity.
    + unfold raise at 1. cbn beta iota. eexists. reflexivity.
Qed.

Lemma register_hotkeys_run (w : widgets) (s : registry) :
  exists t,
    _register_hotkeys add_hotkey_error float w s =
      (rebuild_outcome float w,
       fold_left (register_step add_hotkey_error) (planned float w)
         (fold_left unregister_step (map_to_list (hotkeys s)).*1 s), t).
Proof.
  unfold _register_hotkeys, planned, rebuild_outcome. rewrite !fold_left_app.
  destruct (unregister_all_run s) as [t0 E0].
  set (s0 := fold_left unregister_step _ s) in *.
  destruct (for_each_run
              (fun '(key, action) =>
                 let hotkey := entry_get w key in
                 _register_hotkey add_hotkey_error hotkey action)
              (fun s '(key, action) =>
                 register_step add_hotkey_error s (entry_get w key, action))
              ltac:(intros [key action] s'; apply register_hotkey_run)
              actions s0) as [t1 E1].
  change (fold_left _ actions s0)
    with (fold_left (register_step add_hotkey_error)
            (map (fun '(key, action) => (entry_get w key, action)) actions) s0) in E1.
  set (s1 := fold_left (register_step add_hotkey_error) (map _ actions) s0) in *.
  destruct (custom_loop_run (tree w) s1) as (t2 & E2).
  set (s2 := fold_left (register_step add_hotkey_error) _ s1) in *.
  destruct (custom_bindings float (tree w)).2 as [percentage |].
  - cbn [fold_left]. eexists.
    eapply bind_run; [exact E0 |].
    eapply bind_run; [exact E1 |].
    eapply bind_raise. exact E2.
  - cbn [fold_left].
    destruct (register_hotkey_run "ctrl+shift+h" start_minimize_sequence s2) as [t3 E3].
    destruct (register_hotkey_run "ctrl+shift+m" complete_minimize_sequence
                (register_step add_hotkey_error s2
                   ("ctrl+shift+h", start_minimize_sequence))) as [t4 E4].
    eexists.
    eapply bind_run; [exact E0 |].
    eapply bind_run; [exact E1 |].
    eapply bind_run; [exact E2 |].
    eapply bind_run; [exact E3 | exact E4].
Qed.
End RegistryFacts.

(** *** What unregistering everything leaves *)

Lemma unregister_step_lookup (s : registry) (k j : string) :
  hotkeys (unregister_step s k) !! j =
    (if decide (j = k)
     then match keyboard_hotkeys s !! j with Some _ => None | None => hotkeys s !! j end
     else hotkeys s !! j)
  /\ keyboard_hotkeys (unregister_step s k) !! j =
    (if decide (j = k) then None else keyboard_hotkeys s !! j).
Proof.
  unfold unregister_step. case_decide as E.
  - subst j. destruct (keyboard_hotkeys s !! k) eqn:K; simpl.
    + now rewrite !lookup_delete_eq.
    + now rewrite K.
  - destruct (keyboard_hotkeys s !! k) eqn:K; simpl; [| easy].
    now rewrite !lookup_delete_ne by congruence.
Qed.

Lemma unregister_fold_lookup (ks : list string) :
  forall (s : registry) (j : string),
    hotkeys (fold_left unregister_step ks s) !! j =
      (if decide (j ∈ ks)
       then match keyboard_hotkeys s !! j with Some _ => None | None => hotkeys s !! j end
       else hotkeys s !! j)
    /\ keyboard_hotkeys (fold_left unregister_step ks s) !! j =
      (if decide (j ∈ ks) then None else keyboard_hotkeys s !! j).
Proof.
  induction ks as [| k ks IH]; intros s j; cbn [fold_left].
  - case_decide as I; [now apply elem_of_nil in I | easy].
  - destruct (IH (unregister_step s k) j) as [-> ->].
    destruct (unregister_step_lookup s k j) as [-> ->].
    rewrite !(decide_ext (j ∈ k :: ks) (j = k \/ j ∈ ks)) by apply elem_of_cons.
    destruct (decide (j ∈ ks)) as [I | I], (decide (j = k)) as [E | N].
    + rewrite !decide_True by tauto. split; reflexivity.
    + rewrite !decide_True by tauto. split; reflexivity.
    + rewrite !decide_True by tauto. subst j.
      split; [| reflexivity]. now destruct (keyboard_hotkeys s !! k).
    + rewrite !decide_False by tauto. split; reflexivity.
Qed.

Lemma elem_of_keys (m : gmap string Callable) (j : string) :
  j ∈ (map_to_list m).*1 <-> is_Some (m !! j).
Proof.
  rewrite list_elem_of_fmap. split.
  - intros ([k a] & -> & H). apply elem_of_map_to_list in H. simpl. eauto.
  - intros [a H]. exists (j, a). split; [reflexivity |]. now apply elem_of_map_to_list.
Qed.

(** Unregistering everything removes from [self.hotkeys] the hotkeys the
    keyboard module holds, and from the table of the module the hotkeys
    [self.hotkeys] holds. *)
Lemma unregister_all_lookup (s : registry) (j : string) :
  hotkeys (fold_left unregister_step (map_to_list (hotkeys s)).*1 s) !! j =
    match keyboard_hotkeys s !! j with Some _ => None | None => hotkeys s !! j end
  /\ keyboard_hotkeys (fold_left unregister_step (map_to_list (hotkeys s)).*1 s) !! j =
    match hotkeys s !! j with Some _ => None | None => keyboard_hotkeys s !! j end.
Proof.
  destruct (unregister_fold_lookup (map_to_list (hotkeys s)).*1 s j) as [-> ->].
  case_decide as I; rewrite elem_of_keys in I.
  - destruct I as [a ->]. easy.
  - destruct (hotkeys s !! j) eqn:H; [exfalso; eauto |].
    split; [| reflexivity]. now destruct (keyboard_hotkeys s !! j).
Qed.

(** *** What registering a list of bindings leaves *)

Section Bindings.
Variable add_hotkey_error : string -> option string.

Lemma bound_snoc (l : list (string * Callable)) (hotkey : string) (action : Callable) :
  bound add_hotkey_error (l ++ [(hotkey, action)]) =
  if accepted add_hotkey_error hotkey
  then <[hotkey := action]> (bound add_hotkey_error l)
  else bound add_hotkey_error l.
Proof. unfold bound. now rewrite fold_left_app. Qed.

Lemma register_fold_lookup (l : list (string * Callable)) :
  forall (s : registry) (j : string),
    hotkeys (fold_left (register_step add_hotkey_error) l s) !! j =
      match bound add_hotkey_error l !! j with Some a => Some a | None => hotkeys s !! j end
    /\ keyboard_hotkeys (fold_left (register_step add_hotkey_error) l s) !! j =
      match bound add_hotkey_error l !! j with
      | Some a => Some a
      | None => keyboard_hotkeys s !! j
      end.
Proof.
  induction l as [| [hotkey action] l IH] using rev_ind; intros s j.
  - unfold bound; simpl. rewrite lookup_empty. easy.
  - rewrite fold_left_app, bound_snoc. cbn [fold_left register_step].
    destruct (IH s j) as [Eh Ek].
    destruct (accepted add_hotkey_error hotkey); [| easy]. cbn [hotkeys keyboard_hotkeys].
    destruct (decide (hotkey = j)) as [-> | N].
    + now rewrite !lookup_insert_eq.
    + now rewrite !lookup_insert_ne by exact N.
Qed.
End Bindings.

(** *** Rebuilding *)

(** A run of [_register_hotkeys] ends as the loop over the rows does, and
    leaves under a hotkey the binding it registers for it, or else what was
    there before if only one of [self.hotkeys] and the keyboard module held
    the hotkey. *)
Lemma rebuild_outcome_of (add_hotkey_error : string -> option string)
    (float : string -> option Q) (w : widgets) (s : registry) :
  outcome_of (_register_hotkeys add_hotkey_error float w) s = rebuild_outcome float w.
Proof.
  unfold outcome_of.
  now destruct (register_hotkeys_run add_hotkey_error float w s) as (t & ->).
Qed.

Lemma rebuild_lookup (add_hotkey_error : string -> option string)
    (float : string -> option Q) (w : widgets) (s : registry) (j : string) :
  let s' := state_after (_register_hotkeys add_hotkey_error float w) s in
  hotkeys s' !! j =
    match bound add_hotkey_error (planned float w) !! j with
    | Some a => Some a
    | None => match keyboard_hotkeys s !! j with Some _ => None | None => hotkeys s !! j end
    end
  /\ keyboard_hotkeys s' !! j =
    match bound add_hotkey_error (planned float w) !! j with
    | Some a => Some a
    | None => match hotkeys s !! j with Some _ => None | None => keyboard_hotkeys s !! j end
    end.
Proof.
  intros s'. subst s'. unfold state_after.
  destruct (register_hotkeys_run add_hotkey_error float w s) as (t & ->).
  cbn [fst snd].
  destruct (register_fold_lookup add_hotkey_error (planned float w)
              (fold_left unregister_step (map_to_list (hotkeys s)).*1 s) j) as [-> ->].
  destruct (unregister_all_lookup s j) as [-> ->].
  split; reflexivity.
Qed.

Lemma empty_registry_consistent : consistent empty_registry.
Proof. intros j [a H]. simpl in H. now rewrite lookup_empty in H. Qed.

Lemma rebuild_keeps_consistent (add_hotkey_error : string -> option string)
    (float : string -> option Q) (w : widgets) (s : registry) :
  consistent s ->
  consistent (state_after (_register_hotkeys add_hotkey_error float w) s).
Proof.
  intros Hs j.
  destruct (rebuild_lookup add_hotkey_error float w s j) as [-> ->].
  destruct (bound add_hotkey_error (planned float w) !! j); [eauto |].
  destruct (keyboard_hotkeys s !! j) eqn:K; [intros [? [=]] |].
  destruct (hotkeys s !! j) eqn:H; [| intros [? [=]]].
  destruct (Hs j) as [a Ha]; [eauto | congruence].
Qed.

(** From a consistent registry a run leaves in [self.hotkeys] the bindings
    it registers and no other. *)
Lemma rebuild_from_consistent (add_hotkey_error : string -> option string)
    (float : string -> option Q) (w : widgets) (s : registry) :
  consistent s ->
  hotkeys (state_after (_register_hotkeys add_hotkey_error float w) s)
  = bound add_hotkey_error (planned float w).
Proof.
  intros Hs. apply map_eq. intros j.
  destruct (rebuild_lookup add_hotkey_error float w s j) as [-> _].
  destruct (bound add_hotkey_error (planned float w) !! j); [reflexivity |].
  destruct (keyboard_hotkeys s !! j) eqn:K; [reflexivity |].
  destruct (hotkeys s !! j) eqn:H; [| reflexivity].
  destruct (Hs j) as [a Ha]; [eauto | congruence].
Qed.


Example rebuild_twice :
  let w := mkWidgets (<["resize_80" := "ctrl+alt+8"]> (shortcuts_entries _create_widgets))
             false [("75", "ctrl+alt+5"); ("abc", "ctrl+alt+1")] in
  let rebuild := _register_hotkeys rejects_nokey float_of_decimal w in
  let stale := mkRegistry {["old" := center]} ∅ in
  map_to_list (hotkeys (state_after rebuild stale))
  = map_to_list (hotkeys (state_after rebuild (state_after rebuild stale))).
Proof. vm_compute. reflexivity. Qed.

(** *** The two hotkeys of the minimize sequence *)





(** * Further properties *)

(** ** Geometry *)

Lemma centred_any (L R width : Z) :
  let l := L + ((R - L) - width) `div` 2 in
  Z.abs ((l - L) - (R - (l + width))) <= 1
  /\ (width <= R - L -> L <= l /\ l + width <= R)
  /\ (R - L <= width -> l <= L /\ R <= l + width).
Proof.
  intros l. subst l.
  pose proof (Z.div_mod ((R - L) - width) 2 ltac:(lia)) as E.
  pose proof (Z.mod_pos_bound ((R - L) - width) 2 ltac:(lia)) as B.
  lia.
Qed.

Lemma fl_proper (fl : Q -> Q) :
  (forall x y : Q, (x <= y)%Q -> (fl x <= fl y)%Q) ->
  forall x y : Q, (x == y)%Q -> (fl x == fl y)%Q.
Proof.
  intros Hmono x y E. apply Qle_antisym; apply Hmono; rewrite E; apply Qle_refl.
Qed.

Lemma int_of_integer (x : Q) (n : Z) : (x == inject_Z n)%Q -> int x = n.
Proof.
  intros E. unfold int. destruct x as [p q]. unfold Qeq in E. simpl in *.
  rewrite Z.mul_1_r in E. subst p. apply Z.quot_mul. lia.
Qed.

(** X1.  The rectangle [_resize_window] gives is centred in the work area for
    every scale and every rounding: the opposite gaps, negative when the
    window overhangs, differ by at most 1. *)
Theorem resize_always_centred (fl : Q -> Q) (W : RECT) (s : Q) :
  let r := resized_rect fl W s in
  Z.abs ((left r - left W) - (right W - right r)) <= 1
  /\ Z.abs ((top r - top W) - (bottom W - bottom r)) <= 1.
Proof.
  intros r. subst r. unfold resized_rect, resize_geometry, placed. simpl.
  split.
  - apply (centred_any (left W) (right W)).
  - apply (centred_any (top W) (bottom W)).
Qed.

(** X2.  With scale 1, as [fullscreen] calls it, the window gets the work area
    itself. *)
Theorem fullscreen_fills_work_area (fl : Q -> Q) (W : RECT) :
  (forall x y : Q, (x <= y)%Q -> (fl x <= fl y)%Q) ->
  (fl (inject_Z (right W - left W)) == inject_Z (right W - left W))%Q ->
  (fl (inject_Z (bottom W - top W)) == inject_Z (bottom W - top W))%Q ->
  resize_geometry fl W 1 = (left W, top W, right W - left W, bottom W - top W)
  /\ resized_rect fl W 1 = W.
Proof.
  intros Hmono Hw Hh.
  assert (E : forall n, (fl (inject_Z n) == inject_Z n)%Q ->
                        int (int_mul_float fl n 1) = n).
  { intros n Hn. apply int_of_integer. unfold int_mul_float.
    rewrite <- Hn at 2. apply (fl_proper fl Hmono). rewrite Hn. apply Qmult_1_r. }
  assert (G : resize_geometry fl W 1
              = (left W, top W, right W - left W, bottom W - top W)).
  { unfold resize_geometry. rewrite (E _ Hw), (E _ Hh).
    rewrite !Z.sub_diag. simpl. now rewrite !Z.add_0_r. }
  split; [exact G |].
  unfold resized_rect. rewrite G. unfold placed. destruct W; simpl. f_equal; lia.
Qed.

Lemma fullscreen_fills_work_area_witness :
  resize_geometry (fun x => x) (mkRECT (-1920) 0 0 1040) 1 = (-1920, 0, 1920, 1040)
  /\ resized_rect (fun x => x) (mkRECT (-1920) 0 0 1040) 1 = mkRECT (-1920) 0 0 1040.
Proof.
  apply (fullscreen_fills_work_area (fun x => x) (mkRECT (-1920) 0 0 1040)
           (fun x y H => H)); reflexivity.
Defined.

(** X3.  With a scale of 1 or more, as a custom action of 100% or more gives, the
    window covers the whole work area. *)
Theorem oversized_covers_work_area (fl : Q -> Q) (W : RECT) (s : Q) :
  (forall x y : Q, (x <= y)%Q -> (fl x <= fl y)%Q) ->
  (fl (inject_Z (right W - left W)) == inject_Z (right W - left W))%Q ->
  (fl (inject_Z (bottom W - top W)) == inject_Z (bottom W - top W))%Q ->
  left W <= right W -> top W <= bottom W ->
  (1 <= s)%Q ->
  let r := resized_rect fl W s in
  left r <= left W /\ right W <= right r /\ top r <= top W /\ bottom W <= bottom r.
Proof.
  intros Hmono Hw Hh Hx Hy Hs.
  assert (B : forall n, (fl (inject_Z n) == inject_Z n)%Q -> 0 <= n ->
                        n <= int (int_mul_float fl n s)).
  { intros n Hn Hpos.
    assert (Hq : (0 <= inject_Z n)%Q)
      by (change 0%Q with (inject_Z 0); rewrite <- Zle_Qle; exact Hpos).
    assert (Hle : (inject_Z n <= int_mul_float fl n s)%Q).
    { unfold int_mul_float. rewrite <- Hn at 1. apply Hmono. rewrite Hn.
      rewrite <- (Qmult_1_l (inject_Z n)) at 1.
      rewrite (Qmult_comm (inject_Z n) s).
      apply Qmult_le_compat_r; assumption. }
    rewrite int_nonneg by (eapply Qle_trans; eassumption).
    rewrite <- (Qfloor_Z n) at 1. apply Qfloor_resp_le. exact Hle. }
  pose proof (B _ Hw ltac:(lia)) as Bw.
  pose proof (B _ Hh ltac:(lia)) as Bh.
  intros r. subst r. unfold resized_rect, resize_geometry, placed. simpl.
  destruct (centred_any (left W) (right W)
              (int (int_mul_float fl (right W - left W) s))) as (_ & _ & Cw).
  destruct (centred_any (top W) (bottom W)
              (int (int_mul_float fl (bottom W - top W) s))) as (_ & _ & Ch).
  simpl in Cw, Ch. specialize (Cw Bw). specialize (Ch Bh). lia.
Qed.

Lemma oversized_covers_work_area_witness :
  let W := mkRECT 0 0 1920 1040 in
  let r := resized_rect (fun x => x) W (15 # 10) in
  r = mkRECT (-480) (-260) 2400 1300
  /\ (left r <= left W /\ right W <= right r /\ top r <= top W /\ bottom W <= bottom r).
Proof.
  split; [reflexivity |].
  apply (oversized_covers_work_area (fun x => x) (mkRECT 0 0 1920 1040) (15 # 10)
           (fun x y H => H)); try reflexivity; try (simpl; lia).
  unfold Qle; simpl; lia.
Defined.

(** ** The actions on the foreground window *)

(** X4.  [center_window] gives the window its own size back, and a position at
    which its opposite gaps to the work area differ by at most 1, whatever
    the size; the window lies within the work area when it fits. *)
Theorem center_window_keeps_size (d : desktop) :
  GetForegroundWindow d <> 0 ->
  let hwnd := GetForegroundWindow d in
  let rect := GetWindowRect d hwnd in
  let width := right rect - left rect in
  let height := bottom rect - top rect in
  let W := Work (monitor_of_window d hwnd) in
  exists l t msg,
    center_window d = [SetWindowPos hwnd l t width height; info msg]
    /\ Z.abs ((l - left W) - (right W - (l + width))) <= 1
    /\ Z.abs ((t - top W) - (bottom W - (t + height))) <= 1
    /\ (width <= right W - left W -> left W <= l /\ l + width <= right W)
    /\ (height <= bottom W - top W -> top W <= t /\ t + height <= bottom W).
Proof.
  intros Hfg hwnd rect width height W.
  unfold center_window, _get_foreground_window, _get_monitor_info.
  fold hwnd. apply Z.eqb_neq in Hfg. fold hwnd in Hfg. rewrite Hfg.
  fold rect. fold width. fold height. fold W.
  destruct (centred_any (left W) (right W) width) as (A1 & A2 & _).
  destruct (centred_any (top W) (bottom W) height) as (B1 & B2 & _).
  do 3 eexists. split; [reflexivity |]. auto.
Qed.

Lemma center_window_keeps_size_witness :
  let d := mkDesktop 7 (fun _ => mkMonitorInfo (mkRECT 0 0 1920 1080) (mkRECT 0 0 1920 1040) 1)
             (mkMonitorInfo (mkRECT 0 0 1920 1080) (mkRECT 0 0 1920 1040) 1)
             [7] (fun _ => true) (fun _ => mkRECT 10 20 811 620) in
  exists l t msg,
    center_window d = [SetWindowPos 7 l t 801 600; info msg]
    /\ Z.abs ((l - 0) - (1920 - (l + 801))) <= 1
    /\ Z.abs ((t - 0) - (1040 - (t + 600))) <= 1
    /\ (801 <= 1920 - 0 -> 0 <= l /\ l + 801 <= 1920)
    /\ (600 <= 1040 - 0 -> 0 <= t /\ t + 600 <= 1040).
Proof.
  intros d.
  apply (center_window_keeps_size d). discriminate.
Defined.

(** X5.  Without a foreground window the callables that resize or center do
    nothing but log one warning: no window is moved, and the minimize
    sequence stays as it is. *)
Theorem no_foreground_window_noop (fl : Q -> Q) (self_hwnd : Z) (d : desktop)
    (now : Q) (c : Callable) (st : sequence) :
  GetForegroundWindow d = 0 ->
  moves_window c = true ->
  call fl self_hwnd d now c st = (st, [warning "No foreground window found."]).
Proof.
  intros Hfg Hc.
  destruct c; try discriminate; simpl;
    unfold resize_foreground, center_window, _get_foreground_window;
    rewrite Hfg; reflexivity.
Qed.

Lemma no_foreground_window_noop_witness :
  let d := mkDesktop 0 (fun _ => mkMonitorInfo (mkRECT 0 0 1920 1080) (mkRECT 0 0 1920 1040) 1)
             (mkMonitorInfo (mkRECT 0 0 1920 1080) (mkRECT 0 0 1920 1040) 1)
             [7] (fun _ => true) (fun _ => mkRECT 10 20 811 620) in
  call (fun x => x) 1 d 5 (resize_function 75) (mkSequence true 4)
  = (mkSequence true 4, [warning "No foreground window found."]).
Proof.
  intros d.
  apply (no_foreground_window_noop (fun x => x) 1 d 5 (resize_function 75)
           (mkSequence true 4)); reflexivity.
Defined.




(** X7.  The closure of a custom action of 0 percent gives the foreground window
    the size 0 by 0, at the centre of the work area. *)
Theorem zero_percent_collapses (fl : Q -> Q) (self_hwnd : Z) (d : desktop)
    (now : Q) (st : sequence) :
  (forall x y : Q, (x <= y)%Q -> (fl x <= fl y)%Q) ->
  (fl 0 == 0)%Q ->
  GetForegroundWindow d <> 0 ->
  let hwnd := GetForegroundWindow d in
  let W := Work (monitor_of_window d hwnd) in
  exists msg,
    call fl self_hwnd d now (resize_function 0) st
    = (st, [SetWindowPos hwnd (left W + (right W - left W) `div` 2)
                              (top W + (bottom W - top W) `div` 2) 0 0;
            info msg]).
Proof.
  intros Hmono H0 Hfg hwnd W. apply Z.eqb_neq in Hfg.
  assert (E : forall n, int (int_mul_float fl n (fl (0 / 100)%Q)) = 0).
  { intros n. apply int_of_integer. unfold int_mul_float.
    assert (Z0 : (fl (0 / 100)%Q == 0)%Q).
    { apply Qeq_trans with (fl 0%Q); [| exact H0].
      apply (fl_proper fl Hmono). reflexivity. }
    apply Qeq_trans with (fl 0%Q); [| exact H0].
    apply (fl_proper fl Hmono). rewrite Z0. apply Qmult_0_r. }
  simpl. unfold resize_foreground, _get_foreground_window. fold hwnd.
  fold hwnd in Hfg. rewrite Hfg. simpl.
  unfold _resize_window, _get_monitor_info, resize_geometry. fold W.
  rewrite !E, !Z.sub_0_r. eexists. reflexivity.
Qed.

Lemma zero_percent_collapses_witness :
  let d := mkDesktop 7 (fun _ => mkMonitorInfo (mkRECT 0 0 1920 1080) (mkRECT 0 0 1920 1040) 1)
             (mkMonitorInfo (mkRECT 0 0 1920 1080) (mkRECT 0 0 1920 1040) 1)
             [7] (fun _ => true) (fun _ => mkRECT 10 20 811 620) in
  exists msg,
    call (fun x => x) 1 d 5 (resize_function 0) initial_sequence
    = (initial_sequence, [SetWindowPos 7 960 520 0 0; info msg]).
Proof.
  intros d.
  apply (zero_percent_collapses (fun x => x) 1 d 5 initial_sequence (fun x y H => H));
    [reflexivity | discriminate].
Defined.

(** ** The minimize sequence over a run of hotkeys *)

Lemma call_step (fl : Q -> Q) (self_hwnd : Z) (d : desktop) (now : Q)
    (c : Callable) (st : sequence) :
  let r := call fl self_hwnd d now c st in
  (List.length (List.filter is_completed r.2)
   + (if minimize_sequence_started r.1 then 1 else 0)
   <= (if minimize_sequence_started st then 1 else 0) + (if is_start c then 1 else 0))%nat.
Proof.
  assert (N : List.filter is_completed
                (_minimize_all_windows_on_current_desktop self_hwnd d) = []).
  { unfold _minimize_all_windows_on_current_desktop.
    rewrite flat_map_enum_handler, List.filter_app. simpl. rewrite app_nil_r.
    induction (List.filter (qualifies self_hwnd d) (EnumWindows d)); [reflexivity |].
    exact IHl. }
  assert (R : forall scale,
            List.filter is_completed (resize_foreground fl d scale) = []).
  { intros scale. unfold resize_foreground, _get_foreground_window, _resize_window.
    destruct (GetForegroundWindow d =? 0); [reflexivity |].
    destruct (resize_geometry fl _ scale) as [[[l t] w] h]. reflexivity. }
  assert (C : List.filter is_completed (center_window d) = []).
  { unfold center_window, _get_foreground_window.
    destruct (GetForegroundWindow d =? 0); reflexivity. }
  intros r. subst r.
  destruct c; cbn [call is_start fst snd]; rewrite ?R, ?C; try (simpl; lia).
  unfold _complete_minimize_sequence. cbn [fst snd minimize_sequence_started].
  destruct (minimize_sequence_started st); [destruct (Qle_bool _ 2) |].
  - rewrite List.filter_app, N. simpl. lia.
  - simpl. lia.
  - simpl. lia.
Qed.

(** X8.  However the hotkeys arrive, the minimize sequence completes at most once
    for each time it was started: the number of completions logged is at most
    the number of start hotkeys delivered, plus one if the sequence was
    started beforehand. *)
Theorem each_start_completes_once (fl : Q -> Q) (self_hwnd : Z) (d : desktop)
    (events : list (Q * Callable)) (st : sequence) :
  (List.length (List.filter is_completed (deliver fl self_hwnd d events st).2)
   <= (if minimize_sequence_started st then 1 else 0)
      + List.length (List.filter is_start (map snd events)))%nat.
Proof.
  revert st. induction events as [| [now c] events IH]; intros st; [simpl; lia |].
  cbn [deliver map snd List.filter].
  pose proof (call_step fl self_hwnd d now c st) as S. cbv zeta in S.
  destruct (call fl self_hwnd d now c st) as [st' t]. cbn [fst snd] in S.
  specialize (IH st').
  destruct (deliver fl self_hwnd d events st') as [st'' t']. cbn [snd] in *.
  rewrite List.filter_app, length_app.
  destruct (is_start c); simpl in *; lia.
Qed.

Example start_then_two_completions :
  let d := mkDesktop 7 (fun _ => mkMonitorInfo (mkRECT 0 0 100 100) (mkRECT 0 0 100 60) 1)
             (mkMonitorInfo (mkRECT 0 0 100 100) (mkRECT 0 0 100 60) 1)
             [7] (fun _ => true) (fun _ => mkRECT 10 10 50 50) in
  (deliver (fun x => x) 1 d
     [(0%Q, start_minimize_sequence); (1%Q, fullscreen);
      (3 # 2, complete_minimize_sequence); (7 # 4, complete_minimize_sequence)]
     initial_sequence).2
  = [info "Minimize sequence started.";
     SetWindowPos 7 0 0 100 60; info "Resized window 7 to 100x60 at (0, 0)";
     ShowWindow_MINIMIZE 7; info "Minimized all windows on current desktop.";
     info "Minimize sequence completed.";
     info "Minimize sequence not started."].
Proof. reflexivity. Qed.

(** ** Single registrations *)

(** X9.  Unregistering a hotkey the keyboard module does not hold raises
    nothing, changes nothing and logs nothing. *)
Theorem unregister_unknown_noop (hotkey : string) (s : registry) :
  keyboard_hotkeys s !! hotkey = None ->
  _unregister_hotkey hotkey s = (Return tt, s, []).
Proof.
  intros H.
  unfold _unregister_hotkey, try_except, bind, keyboard_remove_hotkey.
  rewrite H. reflexivity.
Qed.

Lemma unregister_unknown_noop_witness :
  _unregister_hotkey "ctrl+alt+9"
    (mkRegistry {["ctrl+alt+5" := resize_function 75]} {["ctrl+alt+5" := resize_function 75]})
  = (Return tt,
     mkRegistry {["ctrl+alt+5" := resize_function 75]} {["ctrl+alt+5" := resize_function 75]},
     []).
Proof.
  apply (unregister_unknown_noop "ctrl+alt+9"). reflexivity.
Defined.

(** X10.  A hotkey the keyboard module cannot parse is reported in a message box
    and in the log; [_register_hotkey] then returns, with the registry as it
    was. *)
Theorem register_rejected_hotkey (add_hotkey_error : string -> option string)
    (hotkey msg : string) (action : Callable) (s : registry) :
  blank hotkey = false ->
  add_hotkey_error hotkey = Some msg ->
  _register_hotkey add_hotkey_error hotkey action s =
    (Return tt, s,
     [ showerror "Error" ("Failed to register hotkey '" +:+ hotkey +:+ "': " +:+ msg);
       error ("Failed to register hotkey '" +:+ hotkey +:+ "': " +:+ msg) ]).
Proof.
  intros Hb He.
  unfold _register_hotkey, try_except, bind, keyboard_add_hotkey.
  rewrite Hb, He. reflexivity.
Qed.

Lemma register_rejected_hotkey_witness :
  _register_hotkey rejects_nokey "nokey" fullscreen empty_registry =
    (Return tt, empty_registry,
     [ showerror "Error"
         "Failed to register hotkey 'nokey': Key 'nokey' is not mapped to any known key.";
       error "Failed to register hotkey 'nokey': Key 'nokey' is not mapped to any known key." ]).
Proof.
  apply (register_rejected_hotkey rejects_nokey "nokey"
           "Key 'nokey' is not mapped to any known key." fullscreen empty_registry);
    reflexivity.
Defined.

Lemma register_hotkey_state (add_hotkey_error : string -> option string)
    (hotkey : string) (action : Callable) (s : registry) :
  state_after (_register_hotkey add_hotkey_error hotkey action) s
  = register_step add_hotkey_error s (hotkey, action).
Proof.
  unfold state_after.
  now destruct (register_hotkey_run add_hotkey_error hotkey action s) as [t ->].
Qed.

Lemma unregister_hotkey_state (hotkey : string) (s : registry) :
  state_after (_unregister_hotkey hotkey) s = unregister_step s hotkey.
Proof.
  unfold state_after. now destruct (unregister_hotkey_run hotkey s) as [t ->].
Qed.

(** X11.  Registering a hotkey that is not blank, that the keyboard module
    accepts and that nobody holds binds it, leaves every other hotkey as it
    was, and is undone by unregistering it. *)
Theorem register_then_unregister (add_hotkey_error : string -> option string)
    (hotkey : string) (action : Callable) (s : registry) :
  blank hotkey = false ->
  add_hotkey_error hotkey = None ->
  hotkeys s !! hotkey = None ->
  keyboard_hotkeys s !! hotkey = None ->
  let s' := state_after (_register_hotkey add_hotkey_error hotkey action) s in
  hotkeys s' !! hotkey = Some action
  /\ (forall j, j <> hotkey -> hotkeys s' !! j = hotkeys s !! j)
  /\ state_after (_unregister_hotkey hotkey) s' = s.
Proof.
  intros Hb He Hh Hk s'. subst s'.
  rewrite register_hotkey_state, unregister_hotkey_state.
  unfold register_step, accepted. rewrite Hb, He. simpl.
  split; [apply lookup_insert_eq |].
  split; [intros j Hj; now apply lookup_insert_ne |].
  unfold unregister_step. simpl. rewrite lookup_insert_eq.
  apply registry_eq; simpl; now apply delete_insert_id.
Qed.

Lemma register_then_unregister_witness :
  let s := mkRegistry {["ctrl+alt+5" := resize_function 75]}
                      {["ctrl+alt+5" := resize_function 75]} in
  let s' := state_after (_register_hotkey rejects_nokey "ctrl+alt+8" resize_to_80) s in
  hotkeys s' !! "ctrl+alt+8" = Some resize_to_80
  /\ (forall j, j <> "ctrl+alt+8" -> hotkeys s' !! j = hotkeys s !! j)
  /\ state_after (_unregister_hotkey "ctrl+alt+8") s' = s.
Proof.
  intros s.
  apply (register_then_unregister rejects_nokey "ctrl+alt+8" resize_to_80 s);
    reflexivity.
Defined.

(** ** The registry stays consistent *)

Lemma register_step_consistent (add_hotkey_error : string -> option string)
    (s : registry) (binding : string * Callable) :
  consistent s -> consistent (register_step add_hotkey_error s binding).
Proof.
  intros Hs. destruct binding as [hotkey action]. unfold register_step.
  destruct (accepted add_hotkey_error hotkey); [| exact Hs].
  intros j. simpl. destruct (decide (hotkey = j)) as [-> | N].
  - rewrite !lookup_insert_eq. eauto.
  - rewrite !lookup_insert_ne by exact N. apply Hs.
Qed.

Lemma unregister_step_consistent (s : registry) (hotkey : string) :
  consistent s -> consistent (unregister_step s hotkey).
Proof.
  intros Hs. unfold unregister_step.
  destruct (keyboard_hotkeys s !! hotkey); [| exact Hs].
  intros j. simpl. destruct (decide (hotkey = j)) as [-> | N].
  - rewrite !lookup_delete_eq. intros [? [=]].
  - rewrite !lookup_delete_ne by exact N. apply Hs.
Qed.

Lemma unregister_all_consistent (s : registry) :
  consistent s -> consistent (state_after _unregister_all_hotkeys s).
Proof.
  intros Hs. unfold state_after. destruct (unregister_all_run s) as [t ->].
  cbn [fst snd]. intros j.
  destruct (unregister_all_lookup s j) as [-> ->].
  destruct (keyboard_hotkeys s !! j) eqn:K; [intros [? [=]] |].
  destruct (hotkeys s !! j) eqn:H; [| intros [? [=]]].
  destruct (Hs j) as [a Ha]; [eauto | congruence].
Qed.

Lemma register_custom_hotkey_state (add_hotkey_error : string -> option string)
    (float : string -> option Q) (percentage hotkey : string) (s : registry) :
  _register_custom_hotkey add_hotkey_error float percentage hotkey s
  = match float percentage with
    | Some p => _register_hotkey add_hotkey_error hotkey (resize_function p) s
    | None =>
        (Raise (ValueError ("could not convert string to float: '" +:+ percentage +:+ "'")),
         s, [])
    end.
Proof.
  unfold _register_custom_hotkey, bind, py_float.
  destruct (float percentage) as [p |]; [| reflexivity].
  unfold ret, _create_resize_function.
  destruct (register_hotkey_run add_hotkey_error hotkey (resize_function p) s) as [t ->].
  reflexivity.
Qed.

(** X12.  Every method that writes the registry keeps it consistent: whatever
    [self.hotkeys] holds, the keyboard module holds too. *)
Theorem registry_stays_consistent (add_hotkey_error : string -> option string)
    (float : string -> option Q) (s : registry) :
  consistent s ->
  (forall hotkey action,
     consistent (state_after (_register_hotkey add_hotkey_error hotkey action) s))
  /\ (forall percentage hotkey,
     consistent (state_after
       (_register_custom_hotkey add_hotkey_error float percentage hotkey) s))
  /\ (forall hotkey, consistent (state_after (_unregister_hotkey hotkey) s))
  /\ consistent (state_after _unregister_all_hotkeys s)
  /\ (forall w, consistent (state_after (_register_hotkeys add_hotkey_error float w) s)).
Proof.
  intros Hs. repeat split.
  - intros hotkey action. rewrite register_hotkey_state.
    now apply register_step_consistent.
  - intros percentage hotkey. unfold state_after.
    rewrite register_custom_hotkey_state.
    destruct (float percentage) as [p |]; [| exact Hs].
    fold (state_after (_register_hotkey add_hotkey_error hotkey (resize_function p)) s).
    rewrite register_hotkey_state. now apply register_step_consistent.
  - intros hotkey. rewrite unregister_hotkey_state.
    now apply unregister_step_consistent.
  - now apply unregister_all_consistent.
  - intros w. now apply rebuild_keeps_consistent.
Qed.

Lemma registry_stays_consistent_witness :
  consistent (state_after (_register_hotkey rejects_nokey "ctrl+alt+8" resize_to_80)
                empty_registry)
  /\ consistent (state_after _unregister_all_hotkeys empty_registry).
Proof.
  pose proof (registry_stays_consistent rejects_nokey float_of_decimal empty_registry
                empty_registry_consistent) as (H1 & _ & _ & H4 & _).
  split; [apply H1 | exact H4].
Defined.

(** ** Leaving the application *)



(** ** What a rebuild leaves *)

Section BoundFacts.
Variable add_hotkey_error : string -> option string.

Lemma accepted_true (hotkey : string) :
  accepted add_hotkey_error hotkey = true <->
  blank hotkey = false /\ add_hotkey_error hotkey = None.
Proof.
  unfold accepted. rewrite andb_true_iff, negb_true_iff.
  destruct (add_hotkey_error hotkey); split; intros [? ?]; split;
    congruence.
Qed.

Lemma bound_lookup_Some (l : list (string * Callable)) (j : string) (a : Callable) :
  bound add_hotkey_error l !! j = Some a ->
  In (j, a) l /\ accepted add_hotkey_error j = true.
Proof.
  induction l as [| [hotkey action] l IH] using rev_ind.
  - unfold bound; simpl. now rewrite lookup_empty.
  - rewrite bound_snoc, in_app_iff.
    destruct (accepted add_hotkey_error hotkey) eqn:A.
    + destruct (decide (hotkey = j)) as [-> | N].
      * rewrite lookup_insert_eq. intros [= ->]. split; [right; left; reflexivity | exact A].
      * rewrite lookup_insert_ne by exact N. intros H.
        destruct (IH H). tauto.
    + intros H. destruct (IH H). tauto.
Qed.

End BoundFacts.

(** X14.  After a run of [_register_hotkeys] from a consistent registry, every
    binding in [self.hotkeys] is one this run registered, for a hotkey that
    is not blank and that the keyboard module accepts: nothing survives from
    before the run. *)
Theorem rebuild_leaves_no_stale_binding (add_hotkey_error : string -> option string)
    (float : string -> option Q) (w : widgets) (s : registry)
    (j : string) (a : Callable) :
  consistent s ->
  hotkeys (state_after (_register_hotkeys add_hotkey_error float w) s) !! j = Some a ->
  In (j, a) (planned float w) /\ blank j = false /\ add_hotkey_error j = None.
Proof.
  intros Hs H. rewrite rebuild_from_consistent in H by exact Hs.
  apply bound_lookup_Some in H as [Hin A].
  apply accepted_true in A. tauto.
Qed.

Lemma rebuild_leaves_no_stale_binding_witness :
  let w := tree_insert_end _create_widgets "75" "ctrl+alt+5" in
  let s := mkRegistry {["old" := center]} {["old" := center]} in
  In ("ctrl+alt+5", resize_function 75) (planned float_of_decimal w)
  /\ blank "ctrl+alt+5" = false /\ accepts_all "ctrl+alt+5" = None.
Proof.
  intros w s.
  apply (rebuild_leaves_no_stale_binding accepts_all float_of_decimal w s).
  - intros j. simpl. destruct (decide ("old" = j)) as [<- | N].
    + rewrite !lookup_singleton_eq. auto.
    + rewrite !lookup_singleton_ne by exact N. auto.
  - vm_compute. reflexivity.
Defined.



(** ** Loading settings *)

Lemma replace_special_avoids (x : string) :
  avoids special_chars (replace_special x) = true.
Proof.
  unfold replace_special, special_chars.
  pose proof (fold_replace_avoids hotkey_replacements [] x eq_refl (avoids_nil x)) as H.
  revert H. apply avoids_incl. intros c Hc.
  apply in_or_app. left. apply in_rev. rewrite rev_involutive. exact Hc.
Qed.

Lemma replace_special_plain (x : string) :
  avoids special_chars x = true -> replace_special x = x.
Proof.
  intros H. unfold replace_special.
  now apply (fold_replace_absent hotkey_replacements []).
Qed.

Example special_chars_listed :
  map nat_of_ascii special_chars = [44; 46; 47; 92; 59; 39; 45; 61; 96; 91; 93; 32]%nat.
Proof. reflexivity. Qed.

(** X16.  A hotkey string comes out of the replacements without any of the twelve
    special characters, and unchanged exactly when it held none; so no
    shortcut entry and no row of the tree that [_load_settings] fills holds
    one. *)
Theorem loaded_hotkeys_are_plain :
  (forall x, avoids special_chars (replace_special x) = true)
  /\ (forall x, replace_special x = x <-> avoids special_chars x = true)
  /\ (forall s w key h,
        shortcuts_entries (_load_settings s w) !! key = Some h ->
        avoids special_chars h = true)
  /\ (forall s percentage h,
        In (percentage, h) (tree (_load_settings s _create_widgets)) ->
        avoids special_chars h = true).
Proof.
  split; [exact replace_special_avoids |].
  split.
  { intros x. split; [| apply replace_special_plain].
    intros E. rewrite <- E. apply replace_special_avoids. }
  split.
  - intros s w key h. unfold _load_settings. cbn [shortcuts_entries].
    rewrite map_lookup_imap.
    destruct (shortcuts_entries w !! key); simpl; [| discriminate].
    intros [= <-]. apply replace_special_avoids.
  - intros s percentage h. unfold _load_settings. cbn [tree _create_widgets List.app].
    rewrite in_map_iff. intros ([p h'] & [= <- <-] & _).
    apply replace_special_avoids.
Qed.

(** X17.  [_load_settings] keeps the keys of the shortcut entries: a key the file
    lacks gives an empty entry, and a key of the file that names no entry is
    passed over.  The percentages go into the tree as they are, in the order
    of the file, after the rows already there.  Without a file the widgets
    stay as they were created. *)
Theorem load_settings_defaults (s : settings) (w : widgets) :
  (forall key, is_Some (shortcuts_entries (_load_settings s w) !! key)
               <-> is_Some (shortcuts_entries w !! key))
  /\ (forall key, shortcuts s !! key = None ->
        is_Some (shortcuts_entries w !! key) ->
        shortcuts_entries (_load_settings s w) !! key = Some "")
  /\ map fst (tree (_load_settings s w)) = map fst (tree w) ++ map fst (custom_actions s)
  /\ _load_settings (read_settings None).1 _create_widgets = _create_widgets.
Proof.
  unfold _load_settings. cbn [shortcuts_entries tree].
  split.
  { intros key. rewrite map_lookup_imap.
    destruct (shortcuts_entries w !! key); simpl; split; intros [? H]; eauto;
      discriminate. }
  split.
  { intros key Hs [e He]. rewrite map_lookup_imap, He. simpl.
    unfold settings_get. rewrite Hs. reflexivity. }
  split.
  { rewrite map_app, map_map. f_equal. apply map_ext. now intros [p h]. }
  vm_compute. reflexivity.
Qed.

(** ** Saving, adding and removing *)

Section ApplicationFacts.
Variable add_hotkey_error : string -> option string.
Variable float : string -> option Q.

Lemma save_settings_run (a : WindowManagerApp) :
  exists t,
    save_settings add_hotkey_error float a =
      (rebuild_outcome float (app_widgets a),
       mkApp (app_widgets a) (Some (saved_settings (app_widgets a)))
             (state_after (_register_hotkeys add_hotkey_error float (app_widgets a))
                          (app_registry a)),
       t).
Proof.
  unfold save_settings, state_after.
  pose proof (rebuild_outcome_of add_hotkey_error float (app_widgets a) (app_registry a))
    as O.
  unfold outcome_of in O.
  destruct (_register_hotkeys add_hotkey_error float (app_widgets a) (app_registry a))
    as [[r reg] t].
  simpl in *. subst r. eexists. reflexivity.
Qed.

Lemma setup_ui_run (file : option settings) :
  let w := _load_settings (read_settings file).1 _create_widgets in
  exists t,
    _setup_ui add_hotkey_error float file =
      (rebuild_outcome float w,
       mkApp w file (state_after (_register_hotkeys add_hotkey_error float w) empty_registry),
       t).
Proof.
  intros w. subst w. unfold _setup_ui, state_after.
  destruct (read_settings file) as [s log]. cbn [fst].
  pose proof (rebuild_outcome_of add_hotkey_error float
                (_load_settings s _create_widgets) empty_registry) as O.
  unfold outcome_of in O.
  destruct (_register_hotkeys add_hotkey_error float
              (_load_settings s _create_widgets) empty_registry) as [[r reg] t].
  simpl in *. subst r. eexists. reflexivity.
Qed.


Lemma custom_bindings_some_refused (rows : list (string * string)) :
  (exists percentage, (custom_bindings float rows).2 = Some percentage) <->
  Exists (fun row => float row.1 = None) rows.
Proof.
  induction rows as [| [percentage hotkey] rows IH]; simpl.
  - split; [intros [? [=]] | intros H; inversion H].
  - rewrite Exists_cons. simpl. destruct (float percentage) as [p |] eqn:F.
    + destruct (custom_bindings float rows) as [l refused]. simpl in *.
      rewrite <- IH. split; [eauto | intros [[=] | H]; exact H].
    + split; eauto.
Qed.

Lemma custom_bindings_same_percentages (g : string -> string)
    (rows : list (string * string)) :
  (custom_bindings float (map (fun '(p, h) => (p, g h)) rows)).2
  = (custom_bindings float rows).2.
Proof.
  induction rows as [| [percentage hotkey] rows IH]; [reflexivity |].
  simpl. destruct (float percentage); [| reflexivity].
  destruct (custom_bindings float rows), (custom_bindings float (map _ rows)).
  exact IH.
Qed.

End ApplicationFacts.


(** X19.  [save_settings] writes the file before it registers the hotkeys.  With a
    row whose percentage [float] refuses it raises once the file is written,
    the row included, and every start-up from that file raises in turn. *)
Theorem refused_percentage_persists (add_hotkey_error : string -> option string)
    (float : string -> option Q) (a : WindowManagerApp) :
  Exists (fun row => float row.1 = None) (tree (app_widgets a)) ->
  let saved := save_settings add_hotkey_error float a in
  (exists e, saved.1.1 = Raise e)
  /\ settings_json saved.1.2 = Some (saved_settings (app_widgets a))
  /\ custom_actions (saved_settings (app_widgets a)) = tree (app_widgets a)
  /\ exists e, (_setup_ui add_hotkey_error float (settings_json saved.1.2)).1.1 = Raise e.
Proof.
  intros Hbad saved. subst saved.
  destruct (save_settings_run add_hotkey_error float a) as [t ->]. cbn [fst snd settings_json].
  apply custom_bindings_some_refused in Hbad as [percentage Hp].
  split; [unfold rebuild_outcome; rewrite Hp; eauto |].
  split; [reflexivity |]. split; [reflexivity |].
  destruct (setup_ui_run add_hotkey_error float (Some (saved_settings (app_widgets a))))
    as [t' ->].
  cbn [fst]. unfold rebuild_outcome, _load_settings.
  cbn [tree _create_widgets List.app read_settings fst custom_actions saved_settings].
  rewrite custom_bindings_same_percentages, Hp. eauto.
Qed.

Lemma refused_percentage_persists_witness :
  let a := mkApp (tree_insert_end _create_widgets "abc" "ctrl+alt+1") None empty_registry in
  let saved := save_settings accepts_all float_of_decimal a in
  (exists e, saved.1.1 = Raise e)
  /\ settings_json saved.1.2 = Some (saved_settings (app_widgets a))
  /\ custom_actions (saved_settings (app_widgets a)) = tree (app_widgets a)
  /\ exists e, (_setup_ui accepts_all float_of_decimal (settings_json saved.1.2)).1.1 = Raise e.
Proof.
  intros a.
  apply (refused_percentage_persists accepts_all float_of_decimal a).
  apply Exists_cons_hd. reflexivity.
Defined.

(** X20.  When the dialog gave a percentage [float] refuses, [add_custom_action]
    raises with the row already in the tree: the registry is as it was and
    settings.json is not written. *)
Theorem add_custom_action_refused (add_hotkey_error : string -> option string)
    (float : string -> option Q) (percentage hotkey : string) (a : WindowManagerApp) :
  float percentage = None ->
  add_custom_action add_hotkey_error float (Some (percentage, hotkey)) a
  = (Raise (ValueError ("could not convert string to float: '" +:+ percentage +:+ "'")),
     mkApp (tree_insert_end (app_widgets a) percentage hotkey)
           (settings_json a) (app_registry a),
     []).
Proof.
  intros Hp. unfold add_custom_action.
  rewrite register_custom_hotkey_state, Hp. reflexivity.
Qed.

Lemma add_custom_action_refused_witness :
  let squared := String (ascii_of_nat 178) EmptyString in
  let a := mkApp _create_widgets None empty_registry in
  (on_ok squared "ctrl+alt+2").1 = Some (squared, "ctrl+alt+2")
  /\ add_custom_action accepts_all float_of_decimal (on_ok squared "ctrl+alt+2").1 a
     = (Raise (ValueError ("could not convert string to float: '" +:+ squared +:+ "'")),
        mkApp (tree_insert_end _create_widgets squared "ctrl+alt+2") None empty_registry,
        []).
Proof.
  intros squared a. split; [reflexivity |].
  apply (add_custom_action_refused accepts_all float_of_decimal squared "ctrl+alt+2" a).
  reflexivity.
Defined.



(** X22.  [remove_custom_action] on a selected row, from a consistent registry:
    the row leaves the tree, the file is written without it, and its hotkey
    is bound no more unless the run that follows registers it for another
    action.  With nothing selected nothing happens. *)
Theorem remove_custom_action_unbinds (add_hotkey_error : string -> option string)
    (float : string -> option Q) (item : nat) (rest : list nat)
    (percentage hotkey : string) (a : WindowManagerApp) :
  tree (app_widgets a) !! item = Some (percentage, hotkey) ->
  consistent (app_registry a) ->
  let r := remove_custom_action add_hotkey_error float (item :: rest) a in
  let w := tree_delete (app_widgets a) item in
  app_widgets r.1.2 = w
  /\ settings_json r.1.2 = Some (saved_settings w)
  /\ r.1.1 = rebuild_outcome float w
  /\ ((forall action, ~ In (hotkey, action) (planned float w)) ->
      hotkeys (app_registry r.1.2) !! hotkey = None)
  /\ remove_custom_action add_hotkey_error float [] a = (Return tt, a, []).
Proof.
  intros Hrow Hs r w. subst r. unfold remove_custom_action. rewrite Hrow.
  destruct (unregister_hotkey_run hotkey (app_registry a)) as [t ->].
  fold w.
  destruct (save_settings_run add_hotkey_error float
              (mkApp w (settings_json a) (unregister_step (app_registry a) hotkey)))
    as [t' ->].
  cbn [fst snd app_widgets settings_json app_registry].
  repeat split.
  intros Hfree.
  rewrite rebuild_from_consistent by now apply unregister_step_consistent.
  destruct (bound add_hotkey_error (planned float w) !! hotkey) as [action |] eqn:B;
    [| reflexivity].
  apply bound_lookup_Some in B as [Hin _]. now apply Hfree in Hin.
Qed.

Lemma remove_custom_action_unbinds_witness :
  let w := tree_insert_end (tree_insert_end _create_widgets "75" "ctrl+alt+5")
                           "50" "ctrl+alt+6" in
  let a := (_setup_ui accepts_all float_of_decimal (Some (saved_settings w))).1.2 in
  let r := remove_custom_action accepts_all float_of_decimal [0%nat] a in
  hotkeys (app_registry a) !! "ctrl+alt+5" = Some (resize_function 75)
  /\ tree (app_widgets r.1.2) = [("50", "ctrl+alt+6")]
  /\ hotkeys (app_registry r.1.2) !! "ctrl+alt+5" = None
  /\ hotkeys (app_registry r.1.2) !! "ctrl+alt+6" = Some (resize_function 50).
Proof.
  intros w a r. split; [reflexivity |].
  assert (C : consistent (app_registry a)).
  { subst a. destruct (setup_ui_run accepts_all float_of_decimal (Some (saved_settings w)))
      as [t ->].
    apply rebuild_keeps_consistent, empty_registry_consistent. }
  destruct (remove_custom_action_unbinds accepts_all float_of_decimal 0 [] "75" "ctrl+alt+5"
              a eq_refl C) as (Hw & _ & _ & Hfree & _).
  subst r. split; [rewrite Hw; reflexivity |].
  split; [| reflexivity].
  apply Hfree. intros action Hin. vm_compute in Hin.
  repeat (destruct Hin as [Hin | Hin]; [discriminate |]). exact Hin.
Defined.

(** X23.  Saving and starting again brings back what was saved: from a consistent
    registry, and widgets that load from their own saved settings, the
    start-up on the file [save_settings] wrote gives the same widgets, ends
    as the save did, and leaves the same bindings in [self.hotkeys]. *)
Theorem restart_restores_saved (add_hotkey_error : string -> option string)
    (float : string -> option Q) (a : WindowManagerApp) :
  consistent (app_registry a) ->
  _load_settings (saved_settings (app_widgets a)) _create_widgets = app_widgets a ->
  let saved := save_settings add_hotkey_error float a in
  let restarted := _setup_ui add_hotkey_error float (settings_json saved.1.2) in
  app_widgets restarted.1.2 = app_widgets a
  /\ restarted.1.1 = saved.1.1
  /\ hotkeys (app_registry restarted.1.2) = hotkeys (app_registry saved.1.2).
Proof.
  intros Hs Hw saved restarted. subst saved restarted.
  destruct (save_settings_run add_hotkey_error float a) as [t ->].
  cbn [fst snd settings_json app_registry].
  destruct (setup_ui_run add_hotkey_error float (Some (saved_settings (app_widgets a))))
    as [t' ->].
  cbn [fst snd app_widgets app_registry read_settings]. rewrite Hw.
  split; [reflexivity |]. split; [reflexivity |].
  rewrite !rebuild_from_consistent;
    [reflexivity | exact Hs | apply empty_registry_consistent].
Qed.

Lemma restart_restores_saved_witness :
  let file := mkSettings {["center" := "ctrl+alt+,"]} true [("75", "ctrl+alt+[")] in
  let a := (_setup_ui accepts_all float_of_decimal (Some file)).1.2 in
  let saved := save_settings accepts_all float_of_decimal a in
  let restarted := _setup_ui accepts_all float_of_decimal (settings_json saved.1.2) in
  tree (app_widgets a) = [("75", "ctrl+alt+leftspacebracket")]
  /\ app_widgets restarted.1.2 = app_widgets a
  /\ restarted.1.1 = saved.1.1
  /\ hotkeys (app_registry restarted.1.2) = hotkeys (app_registry saved.1.2).
Proof.
  intros file a. split; [reflexivity |].
  apply (restart_restores_saved accepts_all float_of_decimal a).
  - subst a. destruct (setup_ui_run accepts_all float_of_decimal (Some file)) as [t ->].
    apply rebuild_keeps_consistent, empty_registry_consistent.
  - vm_compute. reflexivity.
Defined.

(** ** Starting with Windows *)

(** X24.  Switching the start-up entry off when there is none changes nothing and
    logs nothing; switching it on and off again gives back a Run key that had
    no entry; and no other value of the key is ever touched. *)
Theorem set_startup_entry (frozen : bool) (executable script : string)
    (run_key : gmap string string) :
  (run_key !! app_name = None ->
     set_startup frozen executable script false run_key = (run_key, []))
  /\ (run_key !! app_name = None ->
     (set_startup frozen executable script false
        (set_startup frozen executable script true run_key).1).1 = run_key)
  /\ (set_startup frozen executable script true run_key).1 !! app_name
     = Some (quoted (if frozen then executable else script))
  /\ (set_startup frozen executable script false run_key).1 !! app_name = None
  /\ (forall enable name, name <> app_name ->
        (set_startup frozen executable script enable run_key).1 !! name = run_key !! name).
Proof.
  unfold set_startup. repeat split.
  - intros H. now rewrite H.
  - intros H. cbn [fst]. rewrite lookup_insert_eq. cbn [fst].
    now apply delete_insert_id.
  - cbn [fst]. rewrite lookup_insert_eq. now destruct frozen.
  - destruct (run_key !! app_name) eqn:E; cbn [fst];
      [apply lookup_delete_eq | exact E].
  - intros enable name Hn. destruct enable; cbn [fst].
    + now rewrite lookup_insert_ne.
    + destruct (run_key !! app_name); cbn [fst]; [now rewrite lookup_delete_ne | reflexivity].
Qed.

Lemma set_startup_entry_witness :
  let run_key : gmap string string := {["OneDrive" := "onedrive.exe /background"]} in
  set_startup true "wm.exe" "main.py" false run_key = (run_key, [])
  /\ (set_startup true "wm.exe" "main.py" false
        (set_startup true "wm.exe" "main.py" true run_key).1).1 = run_key.
Proof.
  intros run_key.
  destruct (set_startup_entry true "wm.exe" "main.py" run_key) as (H1 & H2 & _).
  split; [apply H1 | apply H2]; reflexivity.
Defined.
